(** * shap.plots._heatmap: data preparation of the SHAP heatmap

    A shallow embedding of [heatmap] from [shap/plots/_heatmap.py].

    The function sorts the matrix of SHAP values by rows and columns,
    collapses the tail of the feature axis into one "other features" column,
    and computes what it hands to matplotlib: the matrix, the tick labels, the
    colour range, the mean line and the importance bars.  The matplotlib calls
    themselves only consume these values; they are represented by the record
    [layout] of their arguments.

    Numbers.  A cell of a numpy [float64] array is modelled by [num]: a
    rational, one of the two infinities, or NaN.  The special values follow
    IEEE 754 as numpy implements it (0/0 and inf-inf are NaN, x/0 is an
    infinity, NaN is absorbing, every comparison with NaN is false).  On
    finite values [nadd], [nmul] and [ndiv] give the exact result; [round64]
    rounds a rational to the nearest binary64 number and [add64] is the
    addition of the machine.  The collapse takes the summation as an argument
    ([collapse_by]): [collapse] sums exactly, [collapse_by sum64] sums as the
    machine does.  What is stated of the exact operations is what rounding
    to nearest leaves unchanged: the exception raised, the shapes, which
    entries are kept, moved or summed, zeros and NaN, and bounds that a
    monotone rounding preserves.

    Exceptions.  A Python exception is a value of [exn]; a computation that
    may raise has type [result A].

    What lies outside the file.  [np.nanpercentile] is numpy's; it is a
    variable of the section that defines [heatmap].  The ordering strategies
    of [shap.order] are values of the record [strategy]. *)

From Stdlib Require Import QArith Qabs Qround ZArith Lia Lqa.
From stdpp Require Import base list strings pretty.

Local Open Scope Z_scope.

(** ** Numbers *)

Inductive num : Type :=
| Fin (q : Q)
| PInf
| NInf
| NaN.

Definition zero : num := Fin 0.

Definition is_nan (x : num) : bool :=
  match x with NaN => true | _ => false end.


(** The value denoted, up to the representation of the rational. *)
Definition num_eq (x y : num) : Prop :=
  match x, y with
  | Fin a, Fin b => (a == b)%Q
  | PInf, PInf | NInf, NInf | NaN, NaN => True
  | _, _ => False
  end.

Infix "=n=" := num_eq (at level 70, no associativity).

(** [x == y] on floats: NaN is different from everything, itself included. *)
Definition neqb (x y : num) : bool :=
  match x, y with
  | Fin a, Fin b => Qeq_bool a b
  | PInf, PInf | NInf, NInf => true
  | _, _ => false
  end.

(** [x < y] on floats. *)
Definition nltb (x y : num) : bool :=
  match x, y with
  | NaN, _ | _, NaN => false
  | Fin a, Fin b => negb (Qle_bool b a)
  | NInf, NInf | PInf, _ | _, NInf => false
  | NInf, _ | _, PInf => true
  end.

(** [x <= y] as a proposition, false as soon as NaN is involved. *)
Definition nle (x y : num) : Prop :=
  match x, y with
  | NaN, _ | _, NaN => False
  | Fin a, Fin b => (a <= b)%Q
  | NInf, _ | _, PInf => True
  | _, _ => False
  end.

Definition nneg (x : num) : num :=
  match x with
  | Fin q => Fin (- q)
  | PInf => NInf
  | NInf => PInf
  | NaN => NaN
  end.

Definition nabs (x : num) : num :=
  match x with
  | Fin q => Fin (Qabs q)
  | PInf | NInf => PInf
  | NaN => NaN
  end.

Definition nadd (x y : num) : num :=
  match x, y with
  | NaN, _ | _, NaN => NaN
  | Fin a, Fin b => Fin (a + b)
  | PInf, NInf | NInf, PInf => NaN
  | PInf, _ | _, PInf => PInf
  | NInf, _ | _, NInf => NInf
  end.

Definition nsub (x y : num) : num := nadd x (nneg y).

(** The infinity of the sign of [s * q] for an infinity of sign [s]
    ([true] is positive); NaN when [q] is zero. *)
Definition inf_times (s : bool) (q : Q) : num :=
  match (q ?= 0)%Q with
  | Eq => NaN
  | Gt => if s then PInf else NInf
  | Lt => if s then NInf else PInf
  end.

Definition nmul (x y : num) : num :=
  match x, y with
  | NaN, _ | _, NaN => NaN
  | Fin a, Fin b => Fin (a * b)
  | PInf, Fin b => inf_times true b
  | NInf, Fin b => inf_times false b
  | Fin a, PInf => inf_times true a
  | Fin a, NInf => inf_times false a
  | PInf, PInf | NInf, NInf => PInf
  | PInf, NInf | NInf, PInf => NInf
  end.

(** numpy's true division: it never raises; a zero divisor gives an infinity
    or NaN (with a RuntimeWarning). *)
Definition ndiv (x y : num) : num :=
  match x, y with
  | NaN, _ | _, NaN => NaN
  | Fin a, Fin b =>
      if Qeq_bool b 0 then
        match (a ?= 0)%Q with Eq => NaN | Gt => PInf | Lt => NInf end
      else Fin (a / b)
  | Fin _, _ => Fin 0
  | PInf, Fin b => if Qle_bool 0 b then PInf else NInf
  | NInf, Fin b => if Qle_bool 0 b then NInf else PInf
  | _, _ => NaN
  end.

Definition of_nat (n : nat) : num := Fin (inject_Z (Z.of_nat n)).

(** *** Rounding to binary64 *)






(** ** Exceptions *)

Inductive exn : Type :=
| Exception (msg : string)
| UnboundLocalError (var : string)
| IndexError
| ValueError
| ZeroDivisionError.

Inductive result (A : Type) : Type :=
| Ok (a : A)
| Raise (e : exn).

Arguments Ok {A} a.
Arguments Raise {A} e.

Definition bind {A B : Type} (r : result A) (k : A -> result B) : result B :=
  match r with
  | Ok a => k a
  | Raise e => Raise e
  end.

Notation "'let*' x ':=' r 'in' k" := (bind r (fun x => k))
  (at level 10, x pattern, r at level 100, k at level 200).

Definition raises {A : Type} (r : result A) : Prop :=
  match r with Raise _ => True | Ok _ => False end.

Fixpoint traverse {A B : Type} (f : A -> result B) (l : list A) : result (list B) :=
  match l with
  | [] => Ok []
  | a :: l' => let* b := f a in let* bs := traverse f l' in Ok (b :: bs)
  end.

(** ** numpy arrays and Python lists *)

(** A two-dimensional array: [shape[1]] is kept beside the rows, so that an
    array without rows still has a number of columns. *)
Record matrix : Type := Matrix { ncols : nat; rows : list (list num) }.

Definition nrows (m : matrix) : nat := length (rows m).

Definition wf_matrix (m : matrix) : Prop :=
  Forall (fun r => length r = ncols m) (rows m).

(** An index into an axis of length [n]: negative indices count from the
    end, anything outside [-n, n) is an IndexError. *)
Definition norm_index (n : nat) (i : Z) : result nat :=
  if (0 <=? i) && (i <? Z.of_nat n) then Ok (Z.to_nat i)
  else if (- Z.of_nat n <=? i) && (i <? 0) then Ok (Z.to_nat (Z.of_nat n + i))
  else Raise IndexError.

Definition item {A : Type} (l : list A) (j : nat) : result A :=
  match l !! j with
  | Some x => Ok x
  | None => Raise IndexError
  end.

(** The values of numpy's index type [intp], the signed 64-bit integers.
    An array used as an index is cast to that type (the [uint64] value
    [2 ^ 64 - 1] arrives as [-1]): the entries of the index arrays below are
    the values after the cast. *)
Definition is_intp (i : Z) : Prop := - 2 ^ 63 <= i < 2 ^ 63.

(** [a[idx]] for an array of integers [idx]: one element per index, whatever
    the length of [idx]. *)
Definition take_idx {A : Type} (l : list A) (idx : list Z) : result (list A) :=
  traverse (fun i => let* j := norm_index (length l) i in item l j) idx.

(** [m[idx]]: rows selected by an array of integers. *)
Definition take_rows (m : matrix) (idx : list Z) : result matrix :=
  let* rs := take_idx (rows m) idx in
  Ok (Matrix (ncols m) rs).

(** [m[:, idx]]: columns selected by an array of integers. *)
Definition take_cols (m : matrix) (idx : list Z) : result matrix :=
  let* js := traverse (norm_index (ncols m)) idx in
  let* rs := traverse (fun r => traverse (item r) js) (rows m) in
  Ok (Matrix (length idx) rs).

(** Where a slice bound [j] falls on an axis of length [len]. *)
Definition slice_bound (len : nat) (j : Z) : nat :=
  if 0 <=? j then Nat.min (Z.to_nat j) len
  else Z.to_nat (Z.max 0 (Z.of_nat len + j)).

(** [l[:j]] and [l[j:]]. *)
Definition upto {A : Type} (j : Z) (l : list A) : list A :=
  take (slice_bound (length l) j) l.

Definition from {A : Type} (j : Z) (l : list A) : list A :=
  drop (slice_bound (length l) j) l.

(** [np.zeros(k)] and [np.zeros((n, k))]: a negative dimension is a
    ValueError. *)
Definition np_zeros (k : Z) : result (list num) :=
  if k <? 0 then Raise ValueError else Ok (replicate (Z.to_nat k) zero).

Definition np_zeros2 (n : nat) (k : Z) : result matrix :=
  if k <? 0 then Raise ValueError
  else Ok (Matrix (Z.to_nat k) (replicate n (replicate (Z.to_nat k) zero))).

(** [dst[:j] = src]: the shapes must agree, or [src] has one element, which
    is then broadcast; otherwise numpy raises a ValueError. *)
Definition set_upto (j : Z) (dst src : list num) : result (list num) :=
  let d := slice_bound (length dst) j in
  if (length src =? d)%nat then Ok (src ++ drop d dst)
  else if (length src =? 1)%nat then Ok (replicate d (hd zero src) ++ drop d dst)
  else Raise ValueError.

(** [dst[:, :j] = src] for two arrays with the same number of rows. *)
Definition set_cols_upto (j : Z) (dst src : matrix) : result matrix :=
  let d := slice_bound (ncols dst) j in
  if (ncols src =? d)%nat || (ncols src =? 1)%nat then
    let* rs := traverse (fun p => set_upto j (fst p) (snd p))
                        (zip (rows dst) (rows src)) in
    Ok (Matrix (ncols dst) rs)
  else Raise ValueError.

(** [dst[j] = x] and [dst[:, j] = col]. *)
Definition set_item {A : Type} (j : Z) (dst : list A) (x : A) : result (list A) :=
  let* c := norm_index (length dst) j in
  Ok (<[c := x]> dst).

Definition set_col (j : Z) (dst : matrix) (col : list num) : result matrix :=
  let* c := norm_index (ncols dst) j in
  Ok (Matrix (ncols dst) (zip_with (fun r x => <[c := x]> r) (rows dst) col)).

(** [a.sum()], the entries added in index order from zero: with exact
    additions, and with the additions of the machine.  numpy adds the
    entries of an array of fewer than eight elements in that order and
    groups those of a longer one in pairs, so that [sum64] is its sum on the
    short arrays, and on every array on which no addition rounds. *)
Definition nsum (l : list num) : num := fold_left nadd l zero.


(** [m[:, j:]] and [m.sum(1)], [sum] being the sum of a row. *)
Definition cols_from (j : Z) (m : matrix) : matrix :=
  Matrix (ncols m - slice_bound (ncols m) j) (map (from j) (rows m)).

Definition cols_upto (j : Z) (m : matrix) : matrix :=
  Matrix (slice_bound (ncols m) j) (map (upto j) (rows m)).

Definition sum1 (sum : list num -> num) (m : matrix) : list num := map sum (rows m).

(** [m.flatten()]. *)
Definition flatten (m : matrix) : list num := concat (rows m).

(** [np.maximum], which propagates NaN, and [a.max()], a ValueError on an
    empty array. *)
Definition np_maximum (a b : num) : num :=
  if is_nan a then a else if is_nan b then b else if nltb a b then b else a.

Definition np_max (l : list num) : result num :=
  match l with
  | [] => Raise ValueError
  | x :: l' => Ok (fold_left np_maximum l' x)
  end.

(** Python's built-in [min(a, b)] and [max(a, b)]: the first argument is
    kept unless the second is strictly smaller (greater). *)
Definition py_min (a b : num) : num := if nltb b a then b else a.
Definition py_max (a b : num) : num := if nltb a b then b else a.

(** ** The arguments of [heatmap] *)

(** [shap.Explanation]: the matrix of SHAP values and the feature names. *)
Module Explanation.
Record t : Type := make { values : matrix; feature_names : list string }.
End Explanation.

(** An ordering object of [shap.order]: [apply values axis] gives the sort
    ordering of that axis and the per-element values it was computed from
    (the second component is what [return_values=True] adds). *)
Record strategy : Type := { apply : matrix -> nat -> list Z * list num }.

(** What [input_order] and [sample_order] can be: an object of the type of
    [order], something with a [__len__] (an array of indices), or anything
    else, of which only [str(...)] is used. *)
Inductive ordering : Type :=
| Strategy (s : strategy)
| Sequence (p : list Z)
| Unsized (repr : string).

(** The local variables [values], [feature_names] and [order_values]. *)
Record locals : Type :=
  Locals { values : matrix; feature_names : list string; order_values : list num }.

(** What is handed to matplotlib. *)
Record layout : Type := Layout {
  size_inches : Q * Q;           (* set_size_inches(8, ...) *)
  imshow_values : matrix;        (* imshow draws its transpose *)
  imshow_aspect : Q;
  imshow_vmin : num;
  imshow_vmax : num;
  yticks_labels : list string;
  plot_line : list num;          (* the curve above the heat map *)
  barh_width : list num;         (* the bars on the right *)
  barh_left : Q
}.

(** ** The body of [heatmap], block by block *)

(** Lines 43-50: the two ordering arguments.  [order_values] is bound in
    the first branch only: [None] stands for the unbound local. *)
Definition resolve (shap_values : Explanation.t) (input_order sample_order : ordering)
  : result (list Z * option (list num) * list Z) :=
  let* io :=
    match input_order with
    | Strategy s =>
        let r := apply s (Explanation.values shap_values) 1 in
        Ok (fst r, Some (snd r))
    | Sequence p => Ok (p, None)
    | Unsized repr => Raise (Exception ("Unsupported input_order: " +:+ repr +:+ "!"))
    end in
  let* so :=
    match sample_order with
    | Strategy s => Ok (fst (apply s (Explanation.values shap_values) 0))
    | Sequence p => Ok p
    | Unsized repr => Raise (Exception ("Unsupported sample_order: " +:+ repr +:+ "!"))
    end in
  Ok (fst io, snd io, so).

(** Lines 52-54: the names, the matrix and the scores in the new order. *)
Definition reorder (shap_values : Explanation.t)
    (input_order : list Z) (order_values : option (list num)) (sample_order : list Z)
  : result locals :=
  let* feature_names := take_idx (Explanation.feature_names shap_values) input_order in
  let* by_rows := take_rows (Explanation.values shap_values) sample_order in
  let* values := take_cols by_rows input_order in
  let* order_values :=
    match order_values with
    | Some ov => take_idx ov input_order
    | None => Raise (UnboundLocalError "order_values")
    end in
  Ok (Locals values feature_names order_values).

(** Lines 57-67: collapse.  [sum] is the [.sum()] of a one-dimensional
    array, used by line 60 on every row and by line 63 on the scores. *)
Definition other_features (k : Z) : string := pretty k +:+ " other features".

Definition collapse_by (sum : list num -> num) (l : locals) (max_display : Z)
  : result locals :=
  if Z.of_nat (ncols (values l)) >? max_display then
    let* new_values := np_zeros2 (nrows (values l)) max_display in
    let* new_values :=
      set_cols_upto (max_display - 1) new_values (cols_upto (max_display - 1) (values l)) in
    let* new_values :=
      set_col (max_display - 1) new_values
              (sum1 sum (cols_from (max_display - 1) (values l))) in
    let* new_order_values := np_zeros max_display in
    let* new_order_values :=
      set_upto (max_display - 1) new_order_values (upto (max_display - 1) (order_values l)) in
    let* new_order_values :=
      set_item (max_display - 1) new_order_values (sum (from (max_display - 1) (order_values l))) in
    let* feature_names :=
      set_item (-1) (upto max_display (feature_names l))
               (other_features (Z.of_nat (ncols (values l)) - max_display + 1)) in
    Ok (Locals new_values feature_names new_order_values)
  else Ok l.

(** The collapse with exact sums. *)
Definition collapse (l : locals) (max_display : Z) : result locals :=
  collapse_by nsum l max_display.

(** Line 77: the colour range given to [imshow], from the two percentiles. *)
Definition color_range (vmin vmax : num) : num * num :=
  (py_min vmin (nneg vmax), py_max (nneg vmin) vmax).

(** Line 77: [0.7 * values.shape[0] / values.shape[1]], Python floats; the
    value before rounding. *)
Definition aspect (values : matrix) : result Q :=
  if (ncols values =? 0)%nat then Raise ZeroDivisionError
  else Ok ((7 # 10) * inject_Z (Z.of_nat (nrows values)) / inject_Z (Z.of_nat (ncols values)))%Q.

(** Line 95: [values.T.mean(0)], the mean of every sample over the features. *)
Definition fx_of (values : matrix) : list num :=
  map (fun r => ndiv (nsum r) (of_nat (ncols values))) (rows values).

(** [x / np.abs(x).max()]. *)
Definition abs_max (x : list num) : result num := np_max (map nabs x).

(** Line 96: [-fx/np.abs(fx).max() - 1.5]. *)
Definition mean_line (fx : list num) : result (list num) :=
  let* m := abs_max fx in
  Ok (map (fun x => nsub (ndiv (nneg x) m) (Fin (3 # 2))) fx).

(** Line 101: [(order_values / np.abs(order_values).max()) * values.shape[0] / 20]. *)
Definition bar_widths (order_values : list num) (shape0 : nat) : result (list num) :=
  let* m := abs_max order_values in
  Ok (map (fun s => ndiv (nmul (ndiv s m) (of_nat shape0)) (Fin 20)) order_values).

Section Heatmap.

(** [np.nanpercentile(a, q)] of a flat array. *)
Variable nanpercentile : list num -> Q -> num.

(** Lines 69-107 on the collapsed locals. *)
Definition draw (l : locals) : result layout :=
  let size := (8, inject_Z (Z.of_nat (ncols (values l))) * (1 # 2) + (5 # 2))%Q in
  let vmin := nanpercentile (flatten (values l)) 1 in
  let vmax := nanpercentile (flatten (values l)) 99 in
  let* a := aspect (values l) in
  let range := color_range vmin vmax in
  let* line := mean_line (fx_of (values l)) in
  let* bars := bar_widths (order_values l) (nrows (values l)) in
  Ok (Layout size (values l) a (fst range) (snd range)
             ("f(x)" :: feature_names l) line bars
             (inject_Z (Z.of_nat (nrows (values l))) * 1 - (1 # 2))%Q).

Definition heatmap (shap_values : Explanation.t) (input_order sample_order : ordering)
    (max_display : Z) : result layout :=
  let* r := resolve shap_values input_order sample_order in
  let* l := reorder shap_values (fst (fst r)) (snd (fst r)) (snd r) in
  let* l := collapse l max_display in
  draw l.

End Heatmap.

(** ** A percentile and an ordering to evaluate examples with *)

Definition nleb (a b : num) : bool := negb (nltb b a).

Fixpoint insert_sorted (x : num) (l : list num) : list num :=
  match l with
  | [] => [x]
  | y :: l' => if nleb x y then x :: l else y :: insert_sorted x l'
  end.

Definition sort_nums (l : list num) : list num := fold_right insert_sorted [] l.

(** numpy's default ("linear") percentile of the entries that are not NaN:
    NaN when there are none.  Between two neighbours [a] and [b] numpy
    interpolates as [a + (b - a) * t], and as [b - (b - a) * (1 - t)] from
    [t = 0.5] on. *)
Definition nanpercentile_linear (a : list num) (q : Q) : num :=
  let s := sort_nums (filter (fun x => negb (is_nan x)) a) in
  match s with
  | [] => NaN
  | _ =>
      let h := (inject_Z (Z.of_nat (length s - 1)) * q / 100)%Q in
      let lo := Z.to_nat (Qfloor h) in
      let t := (h - inject_Z (Qfloor h))%Q in
      let a := nth lo s NaN in
      let b := nth (Nat.min (lo + 1) (length s - 1)) s NaN in
      if Qle_bool (1 # 2) t then nsub b (nmul (nsub b a) (Fin (1 - t)))
      else nadd a (nmul (nsub b a) (Fin t))
  end.

(** An ordering object that answers with a given ordering and given values. *)
Definition fixed_order (p : list Z) (scores : list num) : strategy :=
  {| apply := fun _ _ => (p, scores) |}.

(** ** Vocabulary of the statements *)

(** An index that numpy accepts on an axis of length [n]. *)
Definition in_range (n : nat) (i : Z) : Prop := - Z.of_nat n <= i < Z.of_nat n.

(** The position an accepted index denotes. *)
Definition position (n : nat) (i : Z) : nat :=
  if 0 <=? i then Z.to_nat i else Z.to_nat (Z.of_nat n + i).

(** The element an accepted index selects ([d] when there is none). *)
Definition pick {A : Type} (d : A) (l : list A) (i : Z) : A :=
  nth (position (length l) i) l d.

(** The collapsed form the documentation of the plot describes: the first
    [k - 1] entries are kept and the others are replaced by their sum. *)
Definition merge_tail {A : Type} (sum : list A -> A) (k : nat) (l : list A) : list A :=
  take (k - 1) l ++ [sum (drop (k - 1) l)].

(** The greater of two numbers that are not NaN. *)
Definition nmax (a b : num) : num := if nltb a b then b else a.


(** A number that is zero, and locals that hold [n] rows of zeros over at
    least one column, with names and scores of the same length. *)
Definition is_zero (x : num) : Prop := x =n= zero.

Definition zero_table (l : locals) (n : nat) : Prop :=
  wf_matrix (values l) /\ (0 < ncols (values l))%nat /\ nrows (values l) = n /\
  Forall (Forall is_zero) (rows (values l)) /\
  length (feature_names l) = ncols (values l) /\
  length (order_values l) = ncols (values l).

(** The entry of a matrix at row [i] and column [j]. *)
Definition cell (m : matrix) (i j : nat) : option num :=
  match rows m !! i with
  | Some r => r !! j
  | None => None
  end.






(** ** Inputs of the examples *)

Definition ints (l : list (list Z)) : list (list num) :=
  map (map (fun z => Fin (inject_Z z))) l.

Definition ex_2x3 : Explanation.t :=
  Explanation.make (Matrix 3 (ints [[1; 2; 3]; [4; 5; 6]])) ["a"; "b"; "c"].

Definition by_score_2x3 : ordering :=
  Strategy (fixed_order [2; 0; 1] [Fin 2; Fin 3; Fin 1]).

Definition ex_zeros : Explanation.t :=
  Explanation.make (Matrix 2 (ints [[0; 0]; [0; 0]])) ["a"; "b"].

Definition ex_nan : Explanation.t :=
  Explanation.make (Matrix 1 [[NaN]]) ["a"].


Definition ex_3x12 : locals :=
  Locals (Matrix 12 (ints [[12; 11; 10; 9; 8; 7; 6; 5; 4; 3; 2; 1];
                           [1; 1; 1; 1; 1; 1; 1; 1; 1; 1; 1; 1];
                           [0; 1; 0; 1; 0; 1; 0; 1; 0; 1; 0; 1]]))
         ["f0"; "f1"; "f2"; "f3"; "f4"; "f5"; "f6"; "f7"; "f8"; "f9"; "f10"; "f11"]
         (map (fun z => Fin (inject_Z z)) [12; 11; 10; 9; 8; 7; 6; 5; 4; 3; 2; 1]).

Definition ex_1x1 : Explanation.t :=
  Explanation.make (Matrix 1 [[Fin 1]]) ["a"].

Definition ex_one_nan : Explanation.t :=
  Explanation.make (Matrix 2 [[Fin 1; NaN]; [Fin 2; Fin 3]]) ["a"; "b"].


(** * Properties *)

(** ** Numbers *)

#[global] Instance num_eq_equiv : Equivalence num_eq.
Proof.
  split.
  - intros [q| | |]; simpl; auto. reflexivity.
  - intros [a| | |] [b| | |]; simpl; auto. intros H; symmetry; exact H.
  - intros [a| | |] [b| | |] [c| | |]; simpl; auto; try contradiction.
    intros H1 H2; rewrite H1; exact H2.
Qed.

(** *** Integers in binary64 *)














(** ** Indices and slices *)

Lemma slice_bound_le len j :
  0 <= j -> (Z.to_nat j <= len)%nat -> slice_bound len j = Z.to_nat j.
Proof.
  intros Hj Hle. unfold slice_bound.
  destruct (Z.leb_spec 0 j); [|lia]. lia.
Qed.

Lemma norm_index_nonneg n j :
  0 <= j < Z.of_nat n -> norm_index n j = Ok (Z.to_nat j).
Proof.
  intros H. unfold norm_index.
  destruct (Z.leb_spec 0 j), (Z.ltb_spec j (Z.of_nat n)); simpl; try lia. reflexivity.
Qed.

Lemma norm_index_last n : (0 < n)%nat -> norm_index n (-1) = Ok (n - 1)%nat.
Proof.
  intros H. unfold norm_index.
  destruct (Z.leb_spec 0 (-1)); [lia|]. simpl.
  destruct (Z.leb_spec (- Z.of_nat n) (-1)), (Z.ltb_spec (-1) 0); simpl; try lia.
  f_equal. lia.
Qed.

Lemma upto_take {A : Type} (j : Z) (l : list A) :
  0 <= j -> (Z.to_nat j <= length l)%nat -> upto j l = take (Z.to_nat j) l.
Proof. intros. unfold upto. rewrite slice_bound_le; auto. Qed.

Lemma from_drop {A : Type} (j : Z) (l : list A) :
  0 <= j -> (Z.to_nat j <= length l)%nat -> from j l = drop (Z.to_nat j) l.
Proof. intros. unfold from. rewrite slice_bound_le; auto. Qed.

(** ** Collapse *)

Lemma insert_last_zero {A : Type} (l : list A) (k : nat) (z x : A) :
  (0 < k)%nat -> length l = (k - 1)%nat ->
  <[(k - 1)%nat := x]> (l ++ drop (k - 1) (replicate k z)) = l ++ [x].
Proof.
  intros Hk Hl. rewrite drop_replicate.
  replace (k - (k - 1))%nat with 1%nat by lia. simpl.
  rewrite <- Hl. replace (length l) with (length l + 0)%nat at 1 by lia.
  rewrite insert_app_r. reflexivity.
Qed.

Lemma set_upto_zeros (k : nat) (j : Z) (src : list num) :
  (0 < k)%nat -> j = Z.of_nat k - 1 -> length src = (k - 1)%nat ->
  set_upto j (replicate k zero) src = Ok (src ++ drop (k - 1) (replicate k zero)).
Proof.
  intros Hk -> Hl. unfold set_upto.
  rewrite length_replicate, slice_bound_le by lia.
  replace (Z.to_nat (Z.of_nat k - 1)) with (k - 1)%nat by lia.
  rewrite Hl, Nat.eqb_refl. reflexivity.
Qed.

Lemma set_rows_zeros (k m : nat) (rs : list (list num)) :
  (0 < k)%nat -> (k <= m)%nat -> Forall (fun r => length r = m) rs ->
  traverse (fun p => set_upto (Z.of_nat k - 1) (fst p) (snd p))
    (zip (replicate (length rs) (replicate k zero)) (map (upto (Z.of_nat k - 1)) rs))
  = Ok (map (fun r => take (k - 1) r ++ drop (k - 1) (replicate k zero)) rs).
Proof.
  intros Hk Hm Hwf. induction Hwf as [|r rs Hr Hrs IH]; [reflexivity|].
  cbn [length replicate map zip_with traverse fst snd].
  rewrite IH, upto_take by lia.
  replace (Z.to_nat (Z.of_nat k - 1)) with (k - 1)%nat by lia.
  rewrite (set_upto_zeros k) by (auto; rewrite length_take; lia).
  reflexivity.
Qed.

Lemma set_col_rows (sum : list num -> num) (k m : nat) (rs : list (list num)) :
  (0 < k)%nat -> (k <= m)%nat -> Forall (fun r => length r = m) rs ->
  zip_with (fun r x => <[(k - 1)%nat := x]> r)
    (map (fun r => take (k - 1) r ++ drop (k - 1) (replicate k zero)) rs)
    (map sum (map (from (Z.of_nat k - 1)) rs))
  = map (merge_tail sum k) rs.
Proof.
  intros Hk Hm Hwf. induction Hwf as [|r rs Hr Hrs IH]; [reflexivity|].
  cbn [map zip_with]. rewrite IH. f_equal. unfold merge_tail.
  rewrite insert_last_zero by (auto; rewrite length_take; lia).
  rewrite from_drop by lia.
  replace (Z.to_nat (Z.of_nat k - 1)) with (k - 1)%nat by lia. reflexivity.
Qed.

(** The array that lines 58-65 build by assignment into zeros is the merge
    of the tail, whatever the summation. *)
Lemma collapse_by_merge (sum : list num -> num) (l : locals) (max_display : Z) :
  let k := Z.to_nat max_display in
  wf_matrix (values l) ->
  length (feature_names l) = ncols (values l) ->
  length (order_values l) = ncols (values l) ->
  1 <= max_display < Z.of_nat (ncols (values l)) ->
  collapse_by sum l max_display =
    Ok (Locals (Matrix k (map (merge_tail sum k) (rows (values l))))
               (take (k - 1) (feature_names l) ++
                  [other_features (Z.of_nat (ncols (values l)) - max_display + 1)])
               (merge_tail sum k (order_values l))).
Proof.
  intros k Hwf Hn Ho Hmd.
  assert (Hk : max_display = Z.of_nat k) by lia.
  assert (Hk0 : (0 < k)%nat) by lia.
  assert (Hkm : (k < ncols (values l))%nat) by lia.
  unfold collapse_by.
  destruct (Z.gtb_spec (Z.of_nat (ncols (values l))) max_display) as [_|]; [|lia].
  unfold np_zeros2, np_zeros.
  destruct (Z.ltb_spec max_display 0); [lia|]. simpl bind.
  fold k. rewrite Hk.
  unfold set_cols_upto. simpl ncols. simpl rows.
  rewrite !slice_bound_le by lia.
  replace (Z.to_nat (Z.of_nat k - 1)) with (k - 1)%nat by lia.
  rewrite Nat.eqb_refl. simpl orb. cbv iota.
  unfold nrows.
  rewrite (set_rows_zeros k (ncols (values l))) by (auto; lia).
  simpl bind.
  unfold set_col. simpl ncols.
  rewrite norm_index_nonneg by lia. simpl bind. simpl rows.
  replace (Z.to_nat (Z.of_nat k - 1)) with (k - 1)%nat by lia.
  unfold sum1, cols_from. simpl rows.
  rewrite (set_col_rows sum k (ncols (values l))) by (auto; lia).
  rewrite upto_take by lia.
  replace (Z.to_nat (Z.of_nat k - 1)) with (k - 1)%nat by lia.
  rewrite (set_upto_zeros k) by (auto; rewrite length_take; lia).
  simpl bind.
  unfold set_item.
  rewrite length_app, length_take, length_drop, length_replicate.
  rewrite norm_index_nonneg by lia. simpl bind.
  replace (Z.to_nat (Z.of_nat k - 1)) with (k - 1)%nat by lia.
  rewrite insert_last_zero by (auto; rewrite length_take; lia).
  rewrite from_drop by lia.
  replace (Z.to_nat (Z.of_nat k - 1)) with (k - 1)%nat by lia.
  rewrite upto_take by lia.
  rewrite length_take. rewrite Nat2Z.id.
  rewrite norm_index_last by lia. simpl bind.
  replace (k `min` length (feature_names l))%nat with k by lia.
  assert (Hlast : <[(k - 1)%nat := other_features (Z.of_nat (ncols (values l)) - Z.of_nat k + 1)]>
            (take k (feature_names l)) =
          take (k - 1) (feature_names l) ++
            [other_features (Z.of_nat (ncols (values l)) - Z.of_nat k + 1)]).
  { destruct (lookup_lt_is_Some_2 (feature_names l) (k - 1)) as [x Hx]; [lia|].
    assert (Ht : take k (feature_names l) = take (k - 1) (feature_names l) ++ [x]).
    { rewrite <- (take_S_r _ _ x Hx). f_equal. lia. }
    rewrite Ht.
    replace (k - 1)%nat with (length (take (k - 1) (feature_names l)) + 0)%nat at 1
      by (rewrite length_take; lia).
    rewrite insert_app_r. reflexivity. }
  rewrite Hlast. reflexivity.
Qed.

Lemma collapse_merge (l : locals) (max_display : Z) :
  let k := Z.to_nat max_display in
  wf_matrix (values l) ->
  length (feature_names l) = ncols (values l) ->
  length (order_values l) = ncols (values l) ->
  1 <= max_display < Z.of_nat (ncols (values l)) ->
  collapse l max_display =
    Ok (Locals (Matrix k (map (merge_tail nsum k) (rows (values l))))
               (take (k - 1) (feature_names l) ++
                  [other_features (Z.of_nat (ncols (values l)) - max_display + 1)])
               (merge_tail nsum k (order_values l))).
Proof. apply collapse_by_merge. Qed.

Lemma merge_tail_length {A : Type} (sum : list A -> A) k (l : list A) :
  (0 < k <= S (length l))%nat -> length (merge_tail sum k l) = k.
Proof.
  intros H. unfold merge_tail. rewrite length_app, length_take. simpl. lia.
Qed.





Lemma collapse_by_skipped (sum : list num -> num) (l : locals) (max_display : Z) :
  Z.of_nat (ncols (values l)) <= max_display ->
  collapse_by sum l max_display = Ok l.
Proof.
  intros H. unfold collapse_by.
  destruct (Z.gtb_spec (Z.of_nat (ncols (values l))) max_display); [lia|reflexivity].
Qed.

Lemma collapse_skipped (l : locals) (max_display : Z) :
  Z.of_nat (ncols (values l)) <= max_display ->
  collapse l max_display = Ok l.
Proof. apply collapse_by_skipped. Qed.

(** C9.  When the number of features is at most [max_display], the collapse
    succeeds and its matrix, names and scores are those it was given. *)
Theorem collapse_noop (l : locals) (max_display : Z) :
  Z.of_nat (ncols (values l)) <= max_display ->
  exists l',
    collapse l max_display = Ok l' /\
    values l' = values l /\
    feature_names l' = feature_names l /\
    order_values l' = order_values l.
Proof.
  intros H. exists l. unfold collapse, collapse_by.
  destruct (Z.gtb_spec (Z.of_nat (ncols (values l))) max_display); [lia|].
  repeat split.
Qed.

Lemma collapse_noop_witness :
  exists l',
    collapse ex_3x12 12 = Ok l' /\
    values l' = values ex_3x12 /\
    feature_names l' = feature_names ex_3x12 /\
    order_values l' = order_values ex_3x12.
Proof. apply collapse_noop. cbn. lia. Defined.




(** ** Index arrays *)

Lemma norm_index_in_range n i :
  in_range n i -> norm_index n i = Ok (position n i) /\ (position n i < n)%nat.
Proof.
  unfold in_range, norm_index, position. intros H.
  destruct (Z.leb_spec 0 i), (Z.ltb_spec i (Z.of_nat n)); simpl; try lia.
  - split; [reflexivity|lia].
  - destruct (Z.leb_spec (- Z.of_nat n) i), (Z.ltb_spec i 0); simpl; try lia.
    split; [reflexivity|lia].
Qed.

Lemma norm_index_out_of_range n i :
  ~ in_range n i -> norm_index n i = Raise IndexError.
Proof.
  unfold in_range, norm_index. intros H.
  destruct (Z.leb_spec 0 i), (Z.ltb_spec i (Z.of_nat n)); simpl; try lia;
    destruct (Z.leb_spec (- Z.of_nat n) i), (Z.ltb_spec i 0); simpl; try lia; reflexivity.
Qed.

Lemma in_range_dec n i : {in_range n i} + {~ in_range n i}.
Proof.
  unfold in_range.
  destruct (Z_le_dec (- Z.of_nat n) i), (Z_lt_dec i (Z.of_nat n)); (left; lia) || (right; lia).
Qed.

Lemma traverse_length {A B : Type} (f : A -> result B) l r :
  traverse f l = Ok r -> length r = length l.
Proof.
  revert r. induction l as [|a l IH]; intros r; simpl.
  - intros [= <-]. reflexivity.
  - destruct (f a) as [b|e]; simpl; [|discriminate].
    destruct (traverse f l) as [bs|e]; simpl; [|discriminate].
    intros [= <-]. simpl. f_equal. apply IH. reflexivity.
Qed.

Lemma traverse_lookup {A B : Type} (f : A -> result B) l r i a :
  traverse f l = Ok r -> l !! i = Some a -> exists b, f a = Ok b /\ r !! i = Some b.
Proof.
  revert r i. induction l as [|x l IH]; intros r i; simpl.
  - intros _ H. destruct i; discriminate H.
  - destruct (f x) as [b|e] eqn:Hx; simpl; [|discriminate].
    destruct (traverse f l) as [bs|e]; simpl; [|discriminate].
    intros [= <-] Hi. destruct i as [|i]; simpl in *.
    + injection Hi as <-. eauto.
    + eapply IH; eauto.
Qed.

Lemma traverse_ok {A B : Type} (f : A -> result B) (g : A -> B) l :
  Forall (fun a => f a = Ok (g a)) l -> traverse f l = Ok (map g l).
Proof.
  induction 1 as [|a l Ha _ IH]; simpl; [reflexivity|].
  rewrite Ha, IH. reflexivity.
Qed.

Lemma traverse_raise {A B : Type} (f : A -> result B) e l :
  (forall a, In a l -> f a = Raise e \/ exists b, f a = Ok b) ->
  Exists (fun a => f a = Raise e) l -> traverse f l = Raise e.
Proof.
  intros Hall Hex. induction Hex as [a l Ha|a l Hex IH]; simpl.
  - rewrite Ha. reflexivity.
  - destruct (Hall a (or_introl eq_refl)) as [Ha|[b Ha]]; rewrite Ha; simpl; [reflexivity|].
    rewrite IH; [reflexivity|]. intros a' Hin. apply Hall. right. exact Hin.
Qed.

Lemma item_pick {A : Type} (d : A) (l : list A) j :
  (j < length l)%nat -> item l j = Ok (nth j l d).
Proof.
  intros H. unfold item.
  destruct (lookup_lt_is_Some_2 l j H) as [x Hx]. rewrite Hx.
  f_equal. symmetry. apply nth_lookup_Some with (d := d). exact Hx.
Qed.

Lemma take_idx_ok {A : Type} (d : A) (l : list A) idx :
  Forall (in_range (length l)) idx -> take_idx l idx = Ok (map (pick d l) idx).
Proof.
  intros H. unfold take_idx. apply traverse_ok.
  eapply Forall_impl; [exact H|]. intros i Hi. cbn beta.
  destruct (norm_index_in_range _ _ Hi) as [-> Hlt]. simpl.
  apply item_pick. exact Hlt.
Qed.

Lemma take_idx_raise {A : Type} (l : list A) idx :
  ~ Forall (in_range (length l)) idx -> take_idx l idx = Raise IndexError.
Proof.
  intros H. unfold take_idx.
  apply traverse_raise.
  - intros i _. destruct (in_range_dec (length l) i) as [Hi|Hi].
    + right. destruct (norm_index_in_range _ _ Hi) as [-> Hlt]. simpl.
      unfold item. destruct (lookup_lt_is_Some_2 l _ Hlt) as [x ->]. eauto.
    + left. rewrite norm_index_out_of_range by exact Hi. reflexivity.
  - apply not_Forall_Exists in H; [|intros i; apply in_range_dec].
    eapply Exists_impl; [exact H|]. intros i Hi. cbn beta in *.
    rewrite norm_index_out_of_range by exact Hi. reflexivity.
Qed.

Lemma pick_Forall {A : Type} (P : A -> Prop) (d : A) l idx :
  Forall (in_range (length l)) idx -> Forall P l -> Forall P (map (pick d l) idx).
Proof.
  intros Hidx HP. rewrite Forall_fmap.
  eapply Forall_impl; [exact Hidx|]. intros i Hi. unfold compose, pick.
  destruct (norm_index_in_range _ _ Hi) as [_ Hlt].
  rewrite Forall_forall in HP. apply HP. apply list_elem_of_In. apply nth_In. exact Hlt.
Qed.

Lemma take_cols_ok (m : matrix) idx :
  wf_matrix m -> Forall (in_range (ncols m)) idx ->
  take_cols m idx = Ok (Matrix (length idx) (map (fun r => map (pick zero r) idx) (rows m))).
Proof.
  intros Hwf Hidx. unfold take_cols.
  rewrite (traverse_ok _ (position (ncols m))).
  2:{ eapply Forall_impl; [exact Hidx|]. intros i Hi. cbn beta.
      apply norm_index_in_range. exact Hi. }
  simpl bind.
  rewrite (traverse_ok _ (fun r => map (pick zero r) idx)); [reflexivity|].
  eapply Forall_impl; [exact Hwf|]. intros r Hr. cbn beta in *.
  rewrite (traverse_ok _ (fun j => nth j r zero)).
  2:{ rewrite Forall_fmap. eapply Forall_impl; [exact Hidx|]. intros i Hi.
      unfold compose. apply item_pick. rewrite Hr.
      apply norm_index_in_range. exact Hi. }
  f_equal. rewrite map_map. apply map_ext. intros i. unfold pick. rewrite Hr. reflexivity.
Qed.

Lemma reorder_ok (sv : Explanation.t) io ov so :
  let m := ncols (Explanation.values sv) in
  let n := nrows (Explanation.values sv) in
  wf_matrix (Explanation.values sv) ->
  length (Explanation.feature_names sv) = m ->
  length ov = m ->
  Forall (in_range m) io ->
  Forall (in_range n) so ->
  reorder sv io (Some ov) so =
    Ok (Locals (Matrix (length io)
                  (map (fun r => map (pick zero r) io)
                       (map (pick [] (rows (Explanation.values sv))) so)))
               (map (pick "" (Explanation.feature_names sv)) io)
               (map (pick zero ov) io)).
Proof.
  intros m n Hwf Hn Ho Hio Hso. unfold reorder.
  rewrite (take_idx_ok "") by (rewrite Hn; exact Hio). simpl bind.
  unfold take_rows. rewrite (take_idx_ok []) by exact Hso. simpl bind.
  rewrite take_cols_ok.
  - simpl bind. rewrite (take_idx_ok zero) by (rewrite Ho; exact Hio). reflexivity.
  - unfold wf_matrix. cbn [rows ncols]. apply pick_Forall; assumption.
  - exact Hio.
Qed.

(** ** The ordering arguments *)

(** C1.  With an explicit feature ordering (a sized sequence) the function
    never produces a layout: [order_values] is bound only when
    [input_order] is an ordering object, and line 54 reads it. *)
Theorem explicit_input_order_raises
    (nanpercentile : list num -> Q -> num) (shap_values : Explanation.t)
    (p : list Z) (sample_order : ordering) (max_display : Z) :
  raises (heatmap nanpercentile shap_values (Sequence p) sample_order max_display).
Proof.
  unfold heatmap, resolve. cbn [bind fst snd].
  destruct sample_order as [s|q|repr]; cbn [bind fst snd]; try exact I;
    unfold reorder;
    destruct (take_idx _ p); cbn [bind]; try exact I;
    destruct (take_rows _ _); cbn [bind]; try exact I;
    destruct (take_cols _ p); cbn [bind]; exact I.
Qed.

(** The exception at a permutation of the right length. *)
Example explicit_input_order_unbound :
  heatmap nanpercentile_linear ex_2x3 (Sequence [2; 0; 1]) (Sequence [1; 0]) 10
  = Raise (UnboundLocalError "order_values").
Proof. reflexivity. Qed.

(** C7.  An ordering argument that is neither an ordering object nor sized
    makes [heatmap] raise the exception of lines 46 and 50, whose message
    names the argument; the exception comes from [resolve], which precedes
    the reindexing of lines 52-54 and does not depend on it. *)
Theorem unsupported_ordering_raises
    (nanpercentile : list num -> Q -> num) (shap_values : Explanation.t)
    (input_order sample_order : ordering) (max_display : Z) :
  (forall repr, input_order = Unsized repr ->
     let e := Exception ("Unsupported input_order: " +:+ repr +:+ "!") in
     resolve shap_values input_order sample_order = Raise e /\
     heatmap nanpercentile shap_values input_order sample_order max_display = Raise e) /\
  (forall repr, sample_order = Unsized repr ->
     (forall r, input_order <> Unsized r) ->
     let e := Exception ("Unsupported sample_order: " +:+ repr +:+ "!") in
     resolve shap_values input_order sample_order = Raise e /\
     heatmap nanpercentile shap_values input_order sample_order max_display = Raise e).
Proof.
  split.
  - intros repr -> e. unfold heatmap, resolve. cbn [bind]. split; reflexivity.
  - intros repr -> Hio e. unfold heatmap, resolve.
    destruct input_order as [s|p|r]; cbn [bind]; try (split; reflexivity).
    exfalso. exact (Hio r eq_refl).
Qed.

Lemma unsupported_ordering_raises_witness :
  heatmap nanpercentile_linear ex_2x3 (Unsized "3") (Sequence [0; 1]) 10
    = Raise (Exception "Unsupported input_order: 3!") /\
  heatmap nanpercentile_linear ex_2x3 by_score_2x3 (Unsized "None") 10
    = Raise (Exception "Unsupported sample_order: None!").
Proof.
  split.
  - exact (proj2 (proj1 (unsupported_ordering_raises nanpercentile_linear ex_2x3
                           (Unsized "3") (Sequence [0; 1]) 10) "3" eq_refl)).
  - refine (proj2 (proj2 (unsupported_ordering_raises nanpercentile_linear ex_2x3
                            by_score_2x3 (Unsized "None") 10) "None" eq_refl _)).
    intros r. discriminate.
Defined.

(** C3, as the specification states it, fails: an explicit sample ordering
    of length 1 on a matrix of 2 samples is accepted, and the layout has one
    row. *)
Lemma short_sample_order_accepted :
  length [0] <> nrows (Explanation.values ex_2x3) /\
  exists L,
    heatmap nanpercentile_linear ex_2x3 by_score_2x3 (Sequence [0]) 10 = Ok L /\
    nrows (imshow_values L) = 1%nat.
Proof.
  split; [cbn; lia|].
  eexists. split; [vm_compute; reflexivity|reflexivity].
Qed.

(** C3, amended.  The reindexing of lines 52-54 does not compare the
    length of an explicit sample ordering with the number of samples: with a
    feature ordering that is in range, it succeeds when every entry of the
    sample ordering is an index numpy accepts, and the result then has one
    row per entry; when some entry of the index array (its entries are
    values of the type [intp]) is not, it raises an IndexError. *)
Theorem sample_order_checked_by_index (shap_values : Explanation.t)
    (input_order : list Z) (order_values : list num) (sample_order : list Z) :
  let m := ncols (Explanation.values shap_values) in
  let n := nrows (Explanation.values shap_values) in
  wf_matrix (Explanation.values shap_values) ->
  length (Explanation.feature_names shap_values) = m ->
  length order_values = m ->
  Forall (in_range m) input_order ->
  (Forall (in_range n) sample_order ->
     exists l, reorder shap_values input_order (Some order_values) sample_order = Ok l /\
               nrows (values l) = length sample_order /\
               rows (values l) =
                 map (fun i => map (pick zero (pick [] (rows (Explanation.values shap_values)) i))
                                   input_order) sample_order) /\
  (Forall is_intp sample_order ->
   ~ Forall (in_range n) sample_order ->
     reorder shap_values input_order (Some order_values) sample_order = Raise IndexError).
Proof.
  intros m n Hwf Hn Ho Hio. split.
  - intros Hso. eexists. split; [apply reorder_ok; assumption|].
    cbn [values rows nrows]. unfold nrows. cbn [rows].
    rewrite !length_fmap. split; [reflexivity|].
    rewrite map_map. reflexivity.
  - intros _ Hso. unfold reorder.
    rewrite (take_idx_ok "") by (rewrite Hn; exact Hio). cbn [bind].
    unfold take_rows. rewrite take_idx_raise by exact Hso. reflexivity.
Qed.

Lemma sample_order_checked_by_index_witness :
  (exists l, reorder ex_2x3 [2; 0; 1] (Some [Fin 2; Fin 3; Fin 1]) [0] = Ok l /\
             nrows (values l) = 1%nat) /\
  reorder ex_2x3 [2; 0; 1] (Some [Fin 2; Fin 3; Fin 1]) [0; 2] = Raise IndexError.
Proof.
  assert (Hwf : wf_matrix (Explanation.values ex_2x3))
    by (unfold wf_matrix; cbn; repeat constructor).
  assert (Hio : Forall (in_range (ncols (Explanation.values ex_2x3))) [2; 0; 1])
    by (unfold in_range; cbn; repeat constructor; lia).
  split.
  - destruct (sample_order_checked_by_index ex_2x3 [2; 0; 1] [Fin 2; Fin 3; Fin 1] [0]
                Hwf eq_refl eq_refl Hio) as [Hok _].
    destruct Hok as (l & Hl & Hn & _).
    + unfold in_range; cbn; repeat constructor; lia.
    + exists l. split; [exact Hl|exact Hn].
  - apply (sample_order_checked_by_index ex_2x3 [2; 0; 1] [Fin 2; Fin 3; Fin 1] [0; 2]
             Hwf eq_refl eq_refl Hio).
    { unfold is_intp. repeat constructor; lia. }
    intros H. inversion H as [|? ? _ H2]. inversion H2 as [|? ? H3 _].
    unfold in_range in H3. cbn in H3. lia.
Defined.

(** ** [max_display] below 1 *)

(** C8, as the specification states it, fails: nothing in the function
    checks [max_display].  With [max_display = 0] the exception is the
    IndexError of the assignment of line 60, with [max_display = -1] the
    ValueError of [np.zeros] on line 58; the first is also what a sample
    index out of range raises under [max_display = 10], so the exception
    does not tell a bad display count from a bad index. *)
Lemma max_display_zero_is_index_error :
  heatmap nanpercentile_linear ex_1x1 (Strategy (fixed_order [0] [Fin 1])) (Sequence [0]) 0
    = Raise IndexError /\
  heatmap nanpercentile_linear ex_1x1 (Strategy (fixed_order [0] [Fin 1])) (Sequence [0]) (-1)
    = Raise ValueError /\
  heatmap nanpercentile_linear ex_1x1 (Strategy (fixed_order [0] [Fin 1])) (Sequence [5]) 10
    = Raise IndexError.
Proof. repeat split. Qed.

Lemma set_cols_upto_ncols j dst src m :
  set_cols_upto j dst src = Ok m -> ncols m = ncols dst.
Proof.
  unfold set_cols_upto.
  destruct (_ || _); [|discriminate].
  destruct (traverse _ _); cbn [bind]; [|discriminate].
  intros [= <-]. reflexivity.
Qed.

Lemma collapse_below_one_raises
    (nanpercentile : list num -> Q -> num) (l : locals) (max_display : Z) :
  max_display < 1 ->
  raises (let* l' := collapse l max_display in draw nanpercentile l').
Proof.
  intros Hmd. unfold collapse, collapse_by.
  destruct (Z.gtb_spec (Z.of_nat (ncols (values l))) max_display) as [Hgt|Hle].
  - unfold np_zeros2.
    destruct (Z.ltb_spec max_display 0) as [Hneg|Hpos]; cbn [bind]; [exact I|].
    assert (max_display = 0) as -> by lia. cbn [Z.to_nat].
    destruct (set_cols_upto _ _ _) as [nv|e] eqn:Hset; cbn [bind]; [|exact I].
    apply set_cols_upto_ncols in Hset. cbn [ncols] in Hset.
    unfold set_col. rewrite Hset. cbn. exact I.
  - cbn [bind]. unfold draw, aspect.
    assert (ncols (values l) = 0%nat) as -> by lia. cbn. exact I.
Qed.

(** C8, amended.  With [max_display < 1] the function always raises (the
    ValueError of [np.zeros] or of the slice assignment, the IndexError of
    the column assignment, the ZeroDivisionError of the aspect ratio of a
    matrix without features, or an earlier exception), so every layout it
    produces was asked with [max_display >= 1]. *)
Theorem max_display_below_one_raises
    (nanpercentile : list num -> Q -> num) (shap_values : Explanation.t)
    (input_order sample_order : ordering) (max_display : Z) :
  max_display < 1 ->
  raises (heatmap nanpercentile shap_values input_order sample_order max_display).
Proof.
  intros Hmd. unfold heatmap.
  destruct (resolve _ _ _) as [r|e]; cbn [bind]; [|exact I].
  destruct (reorder _ _ _ _) as [l|e]; cbn [bind]; [|exact I].
  apply collapse_below_one_raises. exact Hmd.
Qed.

Lemma max_display_below_one_raises_witness :
  raises (heatmap nanpercentile_linear ex_2x3 by_score_2x3 (Sequence [0; 1]) 0).
Proof.
  apply max_display_below_one_raises. lia.
Defined.

(** ** The colour range *)

Lemma Qle_bool_false a b : Qle_bool a b = false <-> (b < a)%Q.
Proof.
  split.
  - intros H. apply Qnot_le_lt. intros Hle. apply Qle_bool_iff in Hle. congruence.
  - intros H. destruct (Qle_bool a b) eqn:E; [|reflexivity].
    apply Qle_bool_iff in E. lra.
Qed.

Lemma color_range_symmetric vmin vmax :
  is_nan vmin = false -> is_nan vmax = false ->
  neqb (snd (color_range vmin vmax)) (nneg (fst (color_range vmin vmax))) = true.
Proof.
  unfold color_range, py_min, py_max.
  destruct vmin as [a| | |], vmax as [b| | |]; cbn; try discriminate; intros _ _;
    try reflexivity; try (apply Qeq_bool_iff; ring).
  destruct (Qle_bool a (- b)) eqn:E1, (Qle_bool b (- a)) eqn:E2; cbn;
    try (apply Qeq_bool_iff; ring).
  - apply Qle_bool_iff in E1. apply Qle_bool_false in E2. lra.
  - apply Qle_bool_iff in E2. apply Qle_bool_false in E1. lra.
Qed.

Lemma color_range_bound vmin vmax :
  nle vmin vmax ->
  snd (color_range vmin vmax) =n= nmax (nabs vmin) (nabs vmax) /\
  fst (color_range vmin vmax) =n= nneg (nmax (nabs vmin) (nabs vmax)).
Proof.
  unfold color_range, py_min, py_max, nmax.
  destruct vmin as [a| | |], vmax as [b| | |]; cbn; try contradiction; intros H;
    try (split; exact I).
  destruct (Qle_bool a (- b)) eqn:E1, (Qle_bool b (- a)) eqn:E2,
           (Qle_bool (Qabs b) (Qabs a)) eqn:E3; cbn;
    try apply Qle_bool_iff in E1; try apply Qle_bool_false in E1;
    try apply Qle_bool_iff in E2; try apply Qle_bool_false in E2;
    try apply Qle_bool_iff in E3; try apply Qle_bool_false in E3;
    revert E3; apply Qabs_case; intros Ha; apply Qabs_case; intros Hb E3;
    split; lra.
Qed.

Lemma draw_inv nanpercentile l L :
  draw nanpercentile l = Ok L ->
  imshow_values L = values l /\
  (imshow_vmin L, imshow_vmax L) =
    color_range (nanpercentile (flatten (values l)) 1%Q)
                (nanpercentile (flatten (values l)) 99%Q) /\
  mean_line (fx_of (values l)) = Ok (plot_line L) /\
  bar_widths (order_values l) (nrows (values l)) = Ok (barh_width L).
Proof.
  unfold draw.
  destruct (aspect _) as [a|e]; cbn [bind]; [|discriminate].
  destruct (mean_line _) as [line|e]; cbn [bind]; [|discriminate].
  destruct (bar_widths _ _) as [bars|e]; cbn [bind]; [|discriminate].
  intros [= <-]. cbn [imshow_values imshow_vmin imshow_vmax plot_line barh_width].
  repeat split.
Qed.

Lemma heatmap_inv nanpercentile sv io so md L :
  heatmap nanpercentile sv io so md = Ok L ->
  exists l, draw nanpercentile l = Ok L.
Proof.
  unfold heatmap.
  destruct (resolve _ _ _) as [r|e]; cbn [bind]; [|discriminate].
  destruct (reorder _ _ _ _) as [l|e]; cbn [bind]; [|discriminate].
  destruct (collapse _ _) as [l'|e]; cbn [bind]; [|discriminate].
  eauto.
Qed.

(** C6, amended.  In every layout the colour range is computed from the two
    percentiles [p1] and [p99] of the drawn matrix; when neither is NaN,
    [vmax == -vmin] holds, and when moreover [p1 <= p99] the range is
    [-bound, +bound] with [bound = max(|p1|, |p99|)]. *)
Theorem color_range_symmetric_for_numbers
    (nanpercentile : list num -> Q -> num) (shap_values : Explanation.t)
    (input_order sample_order : ordering) (max_display : Z) (L : layout) :
  heatmap nanpercentile shap_values input_order sample_order max_display = Ok L ->
  let p1 := nanpercentile (flatten (imshow_values L)) 1%Q in
  let p99 := nanpercentile (flatten (imshow_values L)) 99%Q in
  is_nan p1 = false -> is_nan p99 = false ->
  neqb (imshow_vmax L) (nneg (imshow_vmin L)) = true /\
  (nle p1 p99 ->
     imshow_vmax L =n= nmax (nabs p1) (nabs p99) /\
     imshow_vmin L =n= nneg (nmax (nabs p1) (nabs p99))).
Proof.
  intros H p1 p99 H1 H99.
  apply heatmap_inv in H as [l Hl].
  apply draw_inv in Hl as (Hv & Hr & _).
  subst p1 p99. rewrite Hv in *.
  assert (Hmin : imshow_vmin L = fst (color_range (nanpercentile (flatten (values l)) 1%Q)
                                          (nanpercentile (flatten (values l)) 99%Q)))
    by (rewrite <- Hr; reflexivity).
  assert (Hmax : imshow_vmax L = snd (color_range (nanpercentile (flatten (values l)) 1%Q)
                                          (nanpercentile (flatten (values l)) 99%Q)))
    by (rewrite <- Hr; reflexivity).
  rewrite Hmin, Hmax. split.
  - apply color_range_symmetric; assumption.
  - apply color_range_bound.
Qed.

Lemma color_range_symmetric_for_numbers_witness :
  exists L,
    heatmap nanpercentile_linear ex_2x3 by_score_2x3 (Sequence [1; 0]) 10 = Ok L /\
    neqb (imshow_vmax L) (nneg (imshow_vmin L)) = true.
Proof.
  destruct (heatmap nanpercentile_linear ex_2x3 by_score_2x3 (Sequence [1; 0]) 10)
    as [L|e] eqn:H; [|vm_compute in H; discriminate].
  exists L. split; [reflexivity|].
  pose proof H as H'. vm_compute in H'. injection H' as <-.
  apply (color_range_symmetric_for_numbers _ _ _ _ _ _ H); reflexivity.
Defined.

(** C6, as the specification states it, fails: on a matrix whose entries
    are all NaN both percentiles are NaN, the range is [(NaN, NaN)], and
    [vmax == -vmin] is false. *)
Lemma nan_range_not_symmetric :
  exists L,
    heatmap nanpercentile_linear ex_nan (Strategy (fixed_order [0] [Fin 1])) (Sequence [0]) 10
      = Ok L /\
    neqb (imshow_vmax L) (nneg (imshow_vmin L)) = false.
Proof. eexists. split; [vm_compute; reflexivity|reflexivity]. Qed.

(** ** The mean line and the bars *)

















(** ** The reference percentile on zeros *)

Lemma is_zero_inv x : is_zero x -> exists a, x = Fin a /\ (a == 0)%Q.
Proof. destruct x as [a| | |]; cbn; try contradiction. eauto. Qed.

Lemma insert_sorted_Forall (P : num -> Prop) x l :
  P x -> Forall P l -> Forall P (insert_sorted x l).
Proof.
  intros Hx H. induction H as [|y l Hy Hl IH]; cbn.
  - repeat constructor. exact Hx.
  - destruct (nleb x y); repeat constructor; assumption.
Qed.

Lemma insert_sorted_length x l : length (insert_sorted x l) = S (length l).
Proof.
  induction l as [|y l IH]; cbn; [reflexivity|].
  destruct (nleb x y); cbn; [reflexivity|]. rewrite IH. reflexivity.
Qed.

Lemma sort_nums_Forall (P : num -> Prop) l : Forall P l -> Forall P (sort_nums l).
Proof.
  induction 1 as [|x l Hx _ IH]; [constructor|].
  change (sort_nums (x :: l)) with (insert_sorted x (sort_nums l)).
  apply insert_sorted_Forall; assumption.
Qed.

Lemma sort_nums_length l : length (sort_nums l) = length l.
Proof.
  induction l as [|x l IH]; [reflexivity|].
  change (sort_nums (x :: l)) with (insert_sorted x (sort_nums l)).
  rewrite insert_sorted_length, IH. reflexivity.
Qed.

Lemma filter_not_nan_zeros l :
  Forall is_zero l -> filter (fun x => negb (is_nan x)) l = l.
Proof.
  induction 1 as [|x l Hx _ IH]; [reflexivity|].
  rewrite filter_cons_True.
  - rewrite IH. reflexivity.
  - destruct (is_zero_inv x Hx) as (a & -> & _). exact I.
Qed.

Lemma nanpercentile_linear_zeros (xs : list num) (q : Q) :
  (0 <= q <= 100)%Q -> xs <> [] -> Forall is_zero xs ->
  nanpercentile_linear xs q =n= zero.
Proof.
  intros Hq Hne Hz. unfold nanpercentile_linear.
  rewrite (filter_not_nan_zeros xs Hz).
  pose proof (sort_nums_Forall is_zero xs Hz) as Hs.
  pose proof (sort_nums_length xs) as Hlen.
  set (s := sort_nums xs) in *.
  assert (Hpos : (0 < length s)%nat).
  { rewrite Hlen. destruct xs; [contradiction|cbn; lia]. }
  destruct s as [|y s'] eqn:Es; [cbn in Hpos; lia|]. rewrite <- Es in *. clear Es y s'.
  set (N := inject_Z (Z.of_nat (length s - 1))).
  set (h := (N * q / 100)%Q).
  assert (HN : (0 <= N)%Q) by (unfold N, Qle; cbn; lia).
  assert (Hh : (0 <= h <= N)%Q).
  { unfold h, Qdiv. change (/ 100)%Q with (1 # 100)%Q. clearbody N. split; nra. }
  assert (Hf : 0 <= Qfloor h <= Z.of_nat (length s - 1)).
  { split.
    - change 0 with (Qfloor 0). apply Qfloor_resp_le. apply Hh.
    - rewrite <- (Qfloor_Z (Z.of_nat (length s - 1))). apply Qfloor_resp_le. apply Hh. }
  pose proof (proj1 (Forall_nth is_zero NaN s) Hs) as Hnth.
  destruct (is_zero_inv _ (Hnth (Z.to_nat (Qfloor h)) ltac:(lia))) as (a & -> & Ha).
  destruct (is_zero_inv _ (Hnth (Nat.min (Z.to_nat (Qfloor h) + 1) (length s - 1)) ltac:(lia)))
    as (b & -> & Hb).
  destruct (Qle_bool (1 # 2) (h - inject_Z (Qfloor h))); cbn; rewrite Ha, Hb; ring.
Qed.

(** ** A matrix of zeros *)

Lemma fold_nadd_zeros l s : Forall is_zero l -> is_zero s -> is_zero (fold_left nadd l s).
Proof.
  intros H. revert s. induction H as [|x l Hx _ IH]; intros s Hs; cbn [fold_left]; [exact Hs|].
  apply IH. destruct (is_zero_inv _ Hx) as (a & -> & Ha), (is_zero_inv _ Hs) as (b & -> & Hb).
  cbn. rewrite Ha, Hb. reflexivity.
Qed.

Lemma nsum_zeros l : Forall is_zero l -> is_zero (nsum l).
Proof. intros H. apply fold_nadd_zeros; [exact H|reflexivity]. Qed.

Lemma merge_tail_zeros k l : Forall is_zero l -> Forall is_zero (merge_tail nsum k l).
Proof.
  intros H. unfold merge_tail. apply Forall_app. split.
  - apply Forall_take. exact H.
  - repeat constructor. apply nsum_zeros. apply Forall_drop. exact H.
Qed.

Lemma reorder_zero_table (sv : Explanation.t) io ov so :
  wf_matrix (Explanation.values sv) ->
  length (Explanation.feature_names sv) = ncols (Explanation.values sv) ->
  length ov = ncols (Explanation.values sv) ->
  Forall (Forall is_zero) (rows (Explanation.values sv)) ->
  Forall (in_range (ncols (Explanation.values sv))) io ->
  Forall (in_range (nrows (Explanation.values sv))) so ->
  io <> [] ->
  exists l, reorder sv io (Some ov) so = Ok l /\ zero_table l (length so).
Proof.
  intros Hwf Hn Ho Hz Hio Hso Hne.
  eexists. split; [apply reorder_ok; assumption|].
  unfold zero_table, wf_matrix, nrows. cbn [values feature_names order_values ncols rows].
  assert (Hrows : Forall (fun r => length r = ncols (Explanation.values sv) /\ Forall is_zero r)
                         (map (pick [] (rows (Explanation.values sv))) so)).
  { apply pick_Forall; [exact Hso|].
    apply Forall_and. split; assumption. }
  repeat split.
  - rewrite Forall_fmap. apply Forall_true. intros r. unfold compose. apply length_fmap.
  - destruct io; [contradiction|cbn; lia].
  - rewrite !length_fmap. reflexivity.
  - rewrite Forall_fmap. eapply Forall_impl; [exact Hrows|].
    intros r [Hlen Hr]. unfold compose.
    apply pick_Forall; [rewrite Hlen; exact Hio|exact Hr].
  - apply length_fmap.
  - apply length_fmap.
Qed.

Lemma collapse_zero_table l n max_display :
  zero_table l n -> 1 <= max_display ->
  exists l', collapse l max_display = Ok l' /\ zero_table l' n.
Proof.
  intros (Hwf & Hm & Hn & Hz & Hnames & Hov) Hmd.
  destruct (Z.le_gt_cases (Z.of_nat (ncols (values l))) max_display) as [Hle|Hgt].
  - exists l. split; [apply collapse_skipped; exact Hle|]. repeat split; assumption.
  - eexists. split; [apply collapse_merge; auto; lia|].
    unfold zero_table, wf_matrix, nrows. cbn [values feature_names order_values ncols rows].
    repeat split.
    + rewrite Forall_fmap. eapply Forall_impl; [exact Hwf|].
      intros r Hr. unfold compose. cbn beta in Hr.
      apply merge_tail_length. rewrite Hr. lia.
    + lia.
    + rewrite length_fmap. exact Hn.
    + rewrite Forall_fmap. eapply Forall_impl; [exact Hz|].
      intros r Hr. unfold compose. apply merge_tail_zeros. exact Hr.
    + rewrite length_app, length_take. cbn. lia.
    + apply merge_tail_length. lia.
Qed.

Lemma fx_of_zeros (v : matrix) :
  (0 < ncols v)%nat -> Forall (Forall is_zero) (rows v) -> Forall is_zero (fx_of v).
Proof.
  intros Hm H. unfold fx_of. rewrite Forall_fmap.
  eapply Forall_impl; [exact H|]. intros r Hr. unfold compose.
  destruct (is_zero_inv _ (nsum_zeros r Hr)) as (q & -> & Hq).
  unfold of_nat, ndiv.
  destruct (Qeq_bool (inject_Z (Z.of_nat (ncols v))) 0) eqn:E.
  - apply Qeq_bool_iff in E. unfold Qeq in E. cbn in E. lia.
  - cbn. rewrite Hq. unfold Qdiv. ring.
Qed.

Lemma fold_np_maximum_zeros l s :
  Forall is_zero l -> is_zero s -> is_zero (fold_left np_maximum l s).
Proof.
  intros H. revert s. induction H as [|x l Hx _ IH]; intros s Hs; cbn [fold_left]; [exact Hs|].
  apply IH. destruct (is_zero_inv _ Hx) as (a & -> & Ha), (is_zero_inv _ Hs) as (b & -> & Hb).
  unfold np_maximum. cbn. destruct (Qle_bool a b); cbn; assumption.
Qed.

Lemma nabs_zero x : is_zero x -> is_zero (nabs x).
Proof.
  intros H. destruct (is_zero_inv _ H) as (a & -> & Ha). cbn. rewrite Ha. reflexivity.
Qed.

Lemma abs_max_zeros (x : list num) :
  x <> [] -> Forall is_zero x -> exists c, abs_max x = Ok c /\ is_zero c.
Proof.
  intros Hne H. destruct H as [|v x Hv Hx]; [contradiction|].
  unfold abs_max, np_max. cbn [map]. eexists. split; [reflexivity|].
  apply fold_np_maximum_zeros.
  - rewrite Forall_fmap. eapply Forall_impl; [exact Hx|]. intros; apply nabs_zero; assumption.
  - apply nabs_zero. exact Hv.
Qed.

Lemma abs_max_nonempty (x : list num) : x <> [] -> exists c, abs_max x = Ok c.
Proof. destruct x; [contradiction|]. intros _. unfold abs_max, np_max. cbn [map]. eauto. Qed.

Lemma mean_line_zeros (fx : list num) :
  fx <> [] -> Forall is_zero fx ->
  exists line, mean_line fx = Ok line /\ length line = length fx /\
               Forall (fun y => y = NaN) line.
Proof.
  intros Hne Hz. destruct (abs_max_zeros fx Hne Hz) as (c & Hc & Hc0).
  destruct (is_zero_inv _ Hc0) as (c' & -> & Hc').
  unfold mean_line. rewrite Hc. cbn [bind]. eexists. split; [reflexivity|].
  split; [apply length_fmap|].
  rewrite Forall_fmap. eapply Forall_impl; [exact Hz|].
  intros x Hx. unfold compose. destruct (is_zero_inv _ Hx) as (a & -> & Ha).
  cbn [nneg ndiv].
  assert (E1 : Qeq_bool c' 0 = true) by (apply Qeq_bool_iff; exact Hc').
  assert (E2 : (- a ?= 0)%Q = Eq) by (apply Qeq_alt; rewrite Ha; reflexivity).
  rewrite E1, E2. reflexivity.
Qed.

Lemma color_range_zeros vmin vmax :
  is_zero vmin -> is_zero vmax ->
  is_zero (fst (color_range vmin vmax)) /\ is_zero (snd (color_range vmin vmax)).
Proof.
  intros H1 H2.
  destruct (is_zero_inv _ H1) as (a & -> & Ha), (is_zero_inv _ H2) as (b & -> & Hb).
  unfold color_range, py_min, py_max. cbn.
  destruct (Qle_bool a (- b)), (Qle_bool b (- a)); cbn; split;
    try assumption; rewrite ?Ha, ?Hb; reflexivity.
Qed.

Lemma draw_zero_table (nanpercentile : list num -> Q -> num) l n :
  (forall xs, xs <> [] -> Forall is_zero xs ->
     is_zero (nanpercentile xs 1%Q) /\ is_zero (nanpercentile xs 99%Q)) ->
  zero_table l n -> (0 < n)%nat ->
  exists L, draw nanpercentile l = Ok L /\
    is_zero (imshow_vmin L) /\ is_zero (imshow_vmax L) /\
    length (plot_line L) = n /\ Forall (fun y => y = NaN) (plot_line L).
Proof.
  intros Hnp (Hwf & Hm & Hn & Hz & Hnames & Hov) Hpos.
  assert (Hfx : length (fx_of (values l)) = n) by (unfold fx_of; rewrite length_fmap; exact Hn).
  destruct (mean_line_zeros (fx_of (values l))) as (line & Hline & Hlen & Hnan).
  { intros E. rewrite E in Hfx. cbn in Hfx. lia. }
  { apply fx_of_zeros; assumption. }
  destruct (abs_max_nonempty (order_values l)) as (c & Hc).
  { intros E. rewrite E in Hov. cbn in Hov. lia. }
  assert (Hflat : flatten (values l) <> [] /\ Forall is_zero (flatten (values l))).
  { unfold flatten. split; [|apply Forall_concat; exact Hz].
    unfold nrows in Hn. destruct (rows (values l)) as [|r rs] eqn:E; [cbn in Hn; lia|].
    unfold wf_matrix in Hwf. rewrite E in Hwf. inversion Hwf as [|? ? Hr _]; subst.
    destruct r; [cbn in Hr; lia|]. cbn. discriminate. }
  destruct (Hnp _ (proj1 Hflat) (proj2 Hflat)) as [H1 H99].
  destruct (color_range_zeros _ _ H1 H99) as [Hlo Hhi].
  unfold draw, aspect.
  destruct (Nat.eqb_spec (ncols (values l)) 0) as [E|_]; [lia|].
  cbn [bind]. rewrite Hline. cbn [bind]. unfold bar_widths. rewrite Hc. cbn [bind].
  eexists. split; [reflexivity|].
  cbn [imshow_vmin imshow_vmax plot_line].
  repeat split; try assumption. lia.
Qed.

(** ** The matrix of zeros through the whole function *)

(** C2, as the specification states it, fails: on a matrix of zeros the
    colour range is [(0, 0)], not [(-1, 1)], and the mean line is 0/0, NaN
    at every sample, not zero. *)
Lemma zero_matrix_no_fallback :
  exists L,
    heatmap nanpercentile_linear ex_zeros (Strategy (fixed_order [0; 1] [Fin 0; Fin 0]))
            (Sequence [0; 1]) 10 = Ok L /\
    ~ (imshow_vmin L =n= Fin (-1) /\ imshow_vmax L =n= Fin 1) /\
    imshow_vmin L =n= zero /\ imshow_vmax L =n= zero /\
    plot_line L = [NaN; NaN].
Proof.
  eexists. split; [vm_compute; reflexivity|].
  cbn [imshow_vmin imshow_vmax plot_line]. repeat split.
  intros [H _]. vm_compute in H. discriminate H.
Qed.

(** C2, amended.  On a matrix of zeros with at least one sample and one
    feature, whose orderings are in range, and for [max_display >= 1], the
    function raises nothing and produces a layout; provided the percentiles
    of zeros are zero, the colour range is [(0, 0)]; every point of the
    mean line is NaN (0/0). *)
Theorem zero_matrix_range_and_line
    (nanpercentile : list num -> Q -> num) (shap_values : Explanation.t)
    (input_order sample_order : ordering)
    (io : list Z) (ov : list num) (so : list Z) (max_display : Z) :
  let v := Explanation.values shap_values in
  (forall xs, xs <> [] -> Forall is_zero xs ->
     is_zero (nanpercentile xs 1%Q) /\ is_zero (nanpercentile xs 99%Q)) ->
  resolve shap_values input_order sample_order = Ok (io, Some ov, so) ->
  wf_matrix v ->
  length (Explanation.feature_names shap_values) = ncols v ->
  length ov = ncols v ->
  Forall (Forall is_zero) (rows v) ->
  Forall (in_range (ncols v)) io -> io <> [] ->
  Forall (in_range (nrows v)) so -> so <> [] ->
  1 <= max_display ->
  exists L,
    heatmap nanpercentile shap_values input_order sample_order max_display = Ok L /\
    imshow_vmin L =n= zero /\ imshow_vmax L =n= zero /\
    length (plot_line L) = length so /\
    Forall (fun y => y = NaN) (plot_line L).
Proof.
  intros v Hnp Hres Hwf Hn Ho Hz Hio Hione Hso Hsone Hmd.
  destruct (reorder_zero_table shap_values io ov so Hwf Hn Ho Hz Hio Hso Hione)
    as (l & Hl & Hzt).
  destruct (collapse_zero_table l (length so) max_display Hzt Hmd) as (l' & Hl' & Hzt').
  destruct (draw_zero_table nanpercentile l' (length so) Hnp Hzt') as (L & HL & Hrest).
  { destruct so; [contradiction|cbn; lia]. }
  exists L. split; [|exact Hrest].
  unfold heatmap. rewrite Hres. cbn [bind fst snd]. rewrite Hl. cbn [bind].
  rewrite Hl'. cbn [bind]. exact HL.
Qed.

Lemma zero_matrix_range_and_line_witness :
  exists L,
    heatmap nanpercentile_linear ex_zeros (Strategy (fixed_order [0; 1] [Fin 0; Fin 0]))
            (Sequence [1; 0]) 10 = Ok L /\
    imshow_vmin L =n= zero /\ imshow_vmax L =n= zero /\
    length (plot_line L) = 2%nat /\
    Forall (fun y => y = NaN) (plot_line L).
Proof.
  apply (zero_matrix_range_and_line nanpercentile_linear ex_zeros
           (Strategy (fixed_order [0; 1] [Fin 0; Fin 0])) (Sequence [1; 0])
           [0; 1] [Fin 0; Fin 0] [1; 0] 10).
  - intros xs Hne Hz. split; apply nanpercentile_linear_zeros; auto; lra.
  - reflexivity.
  - unfold wf_matrix. cbn. repeat constructor.
  - reflexivity.
  - reflexivity.
  - cbn. repeat constructor; reflexivity.
  - unfold in_range. cbn. repeat constructor; lia.
  - discriminate.
  - unfold in_range. cbn. repeat constructor; lia.
  - discriminate.
  - lia.
Defined.

(** * Further properties of [heatmap] *)

(** ** Shapes through the function *)

Lemma traverse_Forall {A B : Type} (f : A -> result B) (P : B -> Prop) l r :
  (forall a b, f a = Ok b -> P b) -> traverse f l = Ok r -> Forall P r.
Proof.
  intros Hf. revert r. induction l as [|a l IH]; intros r; cbn [traverse].
  - intros [= <-]. constructor.
  - destruct (f a) as [b|e] eqn:Ha; cbn [bind]; [|discriminate].
    destruct (traverse f l) as [bs|e]; cbn [bind]; [|discriminate].
    intros [= <-]. constructor; [eapply Hf; exact Ha|apply IH; reflexivity].
Qed.

Lemma take_idx_length {A : Type} (l : list A) idx r :
  take_idx l idx = Ok r -> length r = length idx.
Proof. apply traverse_length. Qed.

Lemma take_cols_shape (m : matrix) idx m' :
  take_cols m idx = Ok m' ->
  wf_matrix m' /\ ncols m' = length idx /\ nrows m' = nrows m.
Proof.
  unfold take_cols.
  destruct (traverse (norm_index (ncols m)) idx) as [js|e] eqn:Hjs; cbn [bind]; [|discriminate].
  destruct (traverse _ (rows m)) as [rs|e] eqn:Hrs; cbn [bind]; [|discriminate].
  intros [= <-]. unfold wf_matrix, nrows. cbn [rows ncols]. repeat split.
  - eapply traverse_Forall; [|exact Hrs]. intros r b Hb. cbn beta in Hb.
    rewrite (traverse_length _ _ _ Hb). apply (traverse_length _ _ _ Hjs).
  - apply (traverse_length _ _ _ Hrs).
Qed.

Lemma reorder_shape (sv : Explanation.t) io ov so l :
  reorder sv io ov so = Ok l ->
  wf_matrix (values l) /\ ncols (values l) = length io /\ nrows (values l) = length so /\
  length (feature_names l) = length io /\ length (order_values l) = length io.
Proof.
  unfold reorder.
  destruct (take_idx (Explanation.feature_names sv) io) as [names|e] eqn:Hn;
    cbn [bind]; [|discriminate].
  unfold take_rows.
  destruct (take_idx (rows (Explanation.values sv)) so) as [rs|e] eqn:Hr;
    cbn [bind]; [|discriminate].
  destruct (take_cols _ io) as [v|e] eqn:Hv; cbn [bind]; [|discriminate].
  destruct ov as [ov|]; [|discriminate].
  destruct (take_idx ov io) as [scores|e] eqn:Hs; cbn [bind]; [|discriminate].
  intros [= <-]. cbn [values feature_names order_values].
  apply take_cols_shape in Hv as (Hwf & Hc & Hrows). unfold nrows in Hrows. cbn [rows] in Hrows.
  repeat split; try assumption.
  - unfold nrows. rewrite Hrows. apply (take_idx_length _ _ _ Hr).
  - apply (take_idx_length _ _ _ Hn).
  - apply (take_idx_length _ _ _ Hs).
Qed.

Lemma collapse_zero_raises (l : locals) :
  (0 < ncols (values l))%nat -> exists e, collapse l 0 = Raise e.
Proof.
  intros Hm. unfold collapse, collapse_by.
  destruct (Z.gtb_spec (Z.of_nat (ncols (values l))) 0) as [_|]; [|lia].
  cbn [np_zeros2 Z.ltb Z.compare bind Z.to_nat].
  destruct (set_cols_upto _ _ _) as [nv|e] eqn:Hset; cbn [bind]; [|eauto].
  apply set_cols_upto_ncols in Hset. cbn [ncols] in Hset.
  unfold set_col. rewrite Hset. cbn. eauto.
Qed.

Lemma collapse_shape (l l' : locals) (max_display : Z) :
  wf_matrix (values l) ->
  length (feature_names l) = ncols (values l) ->
  length (order_values l) = ncols (values l) ->
  collapse l max_display = Ok l' ->
  wf_matrix (values l') /\ Z.of_nat (ncols (values l')) <= max_display /\
  nrows (values l') = nrows (values l) /\
  length (feature_names l') = ncols (values l') /\
  length (order_values l') = ncols (values l').
Proof.
  intros Hwf Hn Ho Hc.
  destruct (Z.le_gt_cases (Z.of_nat (ncols (values l))) max_display) as [Hle|Hgt].
  - rewrite collapse_skipped in Hc by exact Hle. injection Hc as <-.
    repeat split; assumption.
  - destruct (Z.le_gt_cases 1 max_display) as [H1|H0].
    + rewrite collapse_merge in Hc by (auto; lia). injection Hc as <-.
      unfold wf_matrix, nrows. cbn [values feature_names order_values ncols rows].
      repeat split.
      * rewrite Forall_fmap. eapply Forall_impl; [exact Hwf|].
        intros r Hr. unfold compose. cbn beta in Hr.
        apply merge_tail_length. rewrite Hr. lia.
      * lia.
      * apply length_fmap.
      * rewrite length_app, length_take. cbn. lia.
      * apply merge_tail_length. lia.
    + exfalso. destruct (Z.eq_dec max_display 0) as [->|Hne].
      * destruct (collapse_zero_raises l) as [e He]; [lia|]. congruence.
      * unfold collapse, collapse_by in Hc.
        destruct (Z.gtb_spec (Z.of_nat (ncols (values l))) max_display); [|lia].
        unfold np_zeros2 in Hc.
        destruct (Z.ltb_spec max_display 0); [|lia]. discriminate Hc.
Qed.

Lemma np_max_ok (l : list num) c : np_max l = Ok c -> l <> [].
Proof. destruct l; [discriminate|]. intros _. discriminate. Qed.

Lemma draw_shape (nanpercentile : list num -> Q -> num) (l : locals) (L : layout) :
  draw nanpercentile l = Ok L ->
  imshow_values L = values l /\
  (0 < ncols (values l))%nat /\ (0 < nrows (values l))%nat /\
  yticks_labels L = "f(x)" :: feature_names l /\
  length (plot_line L) = nrows (values l) /\
  length (barh_width L) = length (order_values l).
Proof.
  unfold draw, aspect.
  destruct (Nat.eqb_spec (ncols (values l)) 0) as [E|E]; cbn [bind]; [discriminate|].
  unfold mean_line, bar_widths, abs_max.
  destruct (np_max (map nabs (fx_of (values l)))) as [m1|e] eqn:H1; cbn [bind]; [|discriminate].
  destruct (np_max (map nabs (order_values l))) as [m2|e] eqn:H2; cbn [bind]; [|discriminate].
  intros [= <-]. cbn [imshow_values yticks_labels plot_line barh_width].
  apply np_max_ok in H1.
  repeat split.
  - lia.
  - unfold nrows. destruct (rows (values l)) eqn:Er; [|cbn; lia].
    exfalso. apply H1. unfold fx_of. rewrite Er. reflexivity.
  - rewrite length_fmap. unfold fx_of. apply length_fmap.
  - apply length_fmap.
Qed.

Lemma heatmap_collapsed
    (nanpercentile : list num -> Q -> num) (shap_values : Explanation.t)
    (input_order sample_order : ordering) (max_display : Z) (L : layout) :
  heatmap nanpercentile shap_values input_order sample_order max_display = Ok L ->
  exists l,
    draw nanpercentile l = Ok L /\
    wf_matrix (values l) /\ Z.of_nat (ncols (values l)) <= max_display /\
    length (feature_names l) = ncols (values l) /\
    length (order_values l) = ncols (values l).
Proof.
  unfold heatmap.
  destruct (resolve _ _ _) as [r|e]; cbn [bind]; [|discriminate].
  destruct (reorder _ _ _ _) as [l|e] eqn:Hl; cbn [bind]; [|discriminate].
  destruct (collapse l max_display) as [l'|e] eqn:Hl'; cbn [bind]; [|discriminate].
  intros HL. exists l'. split; [exact HL|].
  apply reorder_shape in Hl as (Hwf & Hc & _ & Hn & Ho).
  apply collapse_shape in Hl' as (Hwf' & Hmd & _ & Hn' & Ho'); [|assumption|lia|lia].
  repeat split; assumption.
Qed.

(** X1.  Every layout the function produces is well shaped: the drawn
    matrix is rectangular, has at least one sample, and between 1 and
    [max_display] feature columns; there is one tick label per column after
    "f(x)", one bar per column and one point of the mean line per sample. *)
Theorem layout_shape
    (nanpercentile : list num -> Q -> num) (shap_values : Explanation.t)
    (input_order sample_order : ordering) (max_display : Z) (L : layout) :
  heatmap nanpercentile shap_values input_order sample_order max_display = Ok L ->
  wf_matrix (imshow_values L) /\
  1 <= Z.of_nat (ncols (imshow_values L)) <= max_display /\
  (1 <= nrows (imshow_values L))%nat /\
  length (yticks_labels L) = S (ncols (imshow_values L)) /\
  length (barh_width L) = ncols (imshow_values L) /\
  length (plot_line L) = nrows (imshow_values L).
Proof.
  intros H. apply heatmap_collapsed in H as (l & HL & Hwf & Hmd & Hn & Ho).
  apply draw_shape in HL as (Hv & Hm & Hr & Hy & Hp & Hb).
  rewrite Hv, Hy. cbn [length]. repeat split; try assumption; lia.
Qed.

Lemma layout_shape_witness :
  exists L,
    heatmap nanpercentile_linear ex_2x3 by_score_2x3 (Sequence [1; 0]) 2 = Ok L /\
    1 <= Z.of_nat (ncols (imshow_values L)) <= 2 /\
    length (yticks_labels L) = S (ncols (imshow_values L)).
Proof.
  destruct (heatmap nanpercentile_linear ex_2x3 by_score_2x3 (Sequence [1; 0]) 2)
    as [L|e] eqn:H; [|vm_compute in H; discriminate].
  exists L. split; [reflexivity|].
  destruct (layout_shape _ _ _ _ _ _ H) as (_ & Hm & _ & Hy & _).
  split; assumption.
Defined.

(** ** When the function completes, and the exceptions of empty orderings *)

Lemma draw_ok (nanpercentile : list num -> Q -> num) (l : locals) :
  (0 < ncols (values l))%nat -> rows (values l) <> [] -> order_values l <> [] ->
  exists L, draw nanpercentile l = Ok L.
Proof.
  intros Hm Hr Ho. unfold draw, aspect.
  destruct (Nat.eqb_spec (ncols (values l)) 0) as [E|_]; [lia|]. cbn [bind].
  unfold mean_line, bar_widths.
  destruct (abs_max_nonempty (fx_of (values l))) as [c1 ->].
  { unfold fx_of. destruct (rows (values l)); [contradiction|discriminate]. }
  destruct (abs_max_nonempty (order_values l) Ho) as [c2 ->].
  cbn [bind]. eauto.
Qed.

(** X2.  When the shapes are valid the function completes: for a
    rectangular matrix with as many names and scores as columns, orderings
    that are not empty and whose entries are indices numpy accepts, and
    [max_display >= 1], a layout is produced; it has one row per entry of
    the sample ordering and [min(len(input_order), max_display)] columns. *)
Theorem heatmap_completes
    (nanpercentile : list num -> Q -> num) (shap_values : Explanation.t)
    (input_order sample_order : ordering)
    (io : list Z) (ov : list num) (so : list Z) (max_display : Z) :
  let v := Explanation.values shap_values in
  resolve shap_values input_order sample_order = Ok (io, Some ov, so) ->
  wf_matrix v ->
  length (Explanation.feature_names shap_values) = ncols v ->
  length ov = ncols v ->
  Forall (in_range (ncols v)) io -> io <> [] ->
  Forall (in_range (nrows v)) so -> so <> [] ->
  1 <= max_display ->
  exists L,
    heatmap nanpercentile shap_values input_order sample_order max_display = Ok L /\
    nrows (imshow_values L) = length so /\
    Z.of_nat (ncols (imshow_values L)) = Z.min (Z.of_nat (length io)) max_display.
Proof.
  intros v Hres Hwf Hn Ho Hio Hione Hso Hsone Hmd.
  pose proof (reorder_ok shap_values io ov so Hwf Hn Ho Hio Hso) as Hl.
  set (l := Locals _ _ _) in Hl.
  destruct (reorder_shape _ _ _ _ _ Hl) as (Hwfl & Hc & Hr & Hnl & Hol).
  assert (Hio0 : (0 < length io)%nat) by (destruct io; [contradiction|cbn; lia]).
  assert (Hso0 : (0 < length so)%nat) by (destruct so; [contradiction|cbn; lia]).
  assert (Hcol : exists l', collapse l max_display = Ok l' /\
            nrows (values l') = length so /\
            Z.of_nat (ncols (values l')) = Z.min (Z.of_nat (length io)) max_display /\
            length (order_values l') = ncols (values l')).
  { destruct (Z.le_gt_cases (Z.of_nat (ncols (values l))) max_display) as [Hle|Hgt].
    - exists l. split; [apply collapse_skipped; exact Hle|]. repeat split; lia.
    - eexists. split; [apply collapse_merge; auto; lia|].
      unfold nrows. cbn [values order_values ncols rows].
      rewrite length_fmap. fold (nrows (values l)).
      repeat split; [lia|lia|]. apply merge_tail_length. lia. }
  destruct Hcol as (l' & Hl' & Hr' & Hc' & Ho').
  destruct (draw_ok nanpercentile l') as [L HL].
  - lia.
  - unfold nrows in Hr'. destruct (rows (values l')); [cbn in Hr'; lia|discriminate].
  - destruct (order_values l'); [cbn in Ho'; lia|discriminate].
  - exists L. split.
    + unfold heatmap. rewrite Hres. cbn [bind fst snd]. rewrite Hl. cbn [bind].
      rewrite Hl'. cbn [bind]. exact HL.
    + apply draw_shape in HL as (-> & _). split; assumption.
Qed.

Lemma heatmap_completes_witness :
  exists L,
    heatmap nanpercentile_linear ex_2x3 by_score_2x3 (Sequence [1; 0]) 2 = Ok L /\
    nrows (imshow_values L) = 2%nat /\
    Z.of_nat (ncols (imshow_values L)) = 2.
Proof.
  apply (heatmap_completes nanpercentile_linear ex_2x3 by_score_2x3 (Sequence [1; 0])
           [2; 0; 1] [Fin 2; Fin 3; Fin 1] [1; 0] 2).
  - reflexivity.
  - unfold wf_matrix. cbn. repeat constructor.
  - reflexivity.
  - reflexivity.
  - unfold in_range. cbn. repeat constructor; lia.
  - discriminate.
  - unfold in_range. cbn. repeat constructor; lia.
  - discriminate.
  - lia.
Defined.

(** X3.  An empty sample ordering (also what an ordering object answers
    on a matrix without samples) makes the function raise the ValueError of
    [np.abs(fx).max()] on line 96, when everything before succeeds. *)
Theorem empty_sample_order_raises
    (nanpercentile : list num -> Q -> num) (shap_values : Explanation.t)
    (input_order sample_order : ordering)
    (io : list Z) (ov : list num) (max_display : Z) :
  let v := Explanation.values shap_values in
  resolve shap_values input_order sample_order = Ok (io, Some ov, []) ->
  wf_matrix v ->
  length (Explanation.feature_names shap_values) = ncols v ->
  length ov = ncols v ->
  Forall (in_range (ncols v)) io -> io <> [] ->
  1 <= max_display ->
  heatmap nanpercentile shap_values input_order sample_order max_display = Raise ValueError.
Proof.
  intros v Hres Hwf Hn Ho Hio Hione Hmd.
  pose proof (reorder_ok shap_values io ov [] Hwf Hn Ho Hio (List.Forall_nil _)) as Hl.
  cbn [map] in Hl.
  unfold heatmap. rewrite Hres. cbn [bind fst snd]. rewrite Hl. cbn [bind].
  assert (Hio0 : (0 < length io)%nat) by (destruct io; [contradiction|cbn; lia]).
  set (l := Locals _ _ _).
  assert (Hcol : exists l', collapse l max_display = Ok l' /\
            rows (values l') = [] /\ (0 < ncols (values l'))%nat).
  { destruct (Z.le_gt_cases (Z.of_nat (ncols (values l))) max_display) as [Hle|Hgt].
    - exists l. split; [apply collapse_skipped; exact Hle|]. split; [reflexivity|exact Hio0].
    - eexists. split.
      + apply collapse_merge; [constructor|apply length_fmap|apply length_fmap|].
        cbn [values ncols] in *. lia.
      + cbn [values ncols rows map]. split; [reflexivity|lia]. }
  destruct Hcol as (l' & -> & Hr & Hm). cbn [bind].
  unfold draw, aspect.
  destruct (Nat.eqb_spec (ncols (values l')) 0) as [E|_]; [lia|]. cbn [bind].
  unfold mean_line, abs_max, fx_of. rewrite Hr. reflexivity.
Qed.

Lemma empty_sample_order_raises_witness :
  heatmap nanpercentile_linear ex_2x3 by_score_2x3 (Sequence []) 10 = Raise ValueError.
Proof.
  apply (empty_sample_order_raises nanpercentile_linear ex_2x3 by_score_2x3 (Sequence [])
           [2; 0; 1] [Fin 2; Fin 3; Fin 1] 10).
  - reflexivity.
  - unfold wf_matrix. cbn. repeat constructor.
  - reflexivity.
  - reflexivity.
  - unfold in_range. cbn. repeat constructor; lia.
  - discriminate.
  - lia.
Defined.

(** X4.  An empty feature ordering makes the function raise the
    ZeroDivisionError of the aspect ratio of line 77, for every
    [max_display >= 0] and every sample ordering in range. *)
Theorem empty_input_order_raises
    (nanpercentile : list num -> Q -> num) (shap_values : Explanation.t)
    (input_order sample_order : ordering)
    (ov : list num) (so : list Z) (max_display : Z) :
  resolve shap_values input_order sample_order = Ok ([], Some ov, so) ->
  Forall (in_range (nrows (Explanation.values shap_values))) so ->
  0 <= max_display ->
  heatmap nanpercentile shap_values input_order sample_order max_display
    = Raise ZeroDivisionError.
Proof.
  intros Hres Hso Hmd.
  unfold heatmap. rewrite Hres. cbn [bind fst snd].
  unfold reorder. cbn [take_idx traverse bind].
  unfold take_rows. rewrite (take_idx_ok []) by exact Hso. cbn [bind].
  unfold take_cols. cbn [traverse bind ncols rows].
  rewrite (traverse_ok _ (fun _ => [])) by (apply Forall_true; reflexivity).
  cbn [bind length].
  unfold collapse, collapse_by. cbn [values ncols].
  destruct (Z.gtb_spec (Z.of_nat 0) max_display) as [H|_]; [cbn in H; lia|].
  cbn [bind]. reflexivity.
Qed.

Lemma empty_input_order_raises_witness :
  heatmap nanpercentile_linear ex_2x3 (Strategy (fixed_order [] [])) (Sequence [1; 0]) 10
    = Raise ZeroDivisionError.
Proof.
  apply (empty_input_order_raises nanpercentile_linear ex_2x3
           (Strategy (fixed_order [] [])) (Sequence [1; 0]) [] [1; 0] 10).
  - reflexivity.
  - unfold in_range. cbn. repeat constructor; lia.
  - lia.
Defined.

(** X5.  A feature ordering (an index array, whose entries are values of
    the type [intp]) with an entry that is not an index of the feature names
    makes the function raise an IndexError on line 52, whatever the matrix,
    the sample ordering and [max_display]. *)
Theorem feature_index_out_of_range_raises
    (nanpercentile : list num -> Q -> num) (shap_values : Explanation.t)
    (input_order sample_order : ordering)
    (io : list Z) (ov : option (list num)) (so : list Z) (max_display : Z) :
  resolve shap_values input_order sample_order = Ok (io, ov, so) ->
  Forall is_intp io ->
  ~ Forall (in_range (length (Explanation.feature_names shap_values))) io ->
  heatmap nanpercentile shap_values input_order sample_order max_display
    = Raise IndexError.
Proof.
  intros Hres _ Hio. unfold heatmap. rewrite Hres. cbn [bind fst snd].
  unfold reorder. rewrite take_idx_raise by exact Hio. reflexivity.
Qed.

Lemma feature_index_out_of_range_raises_witness :
  heatmap nanpercentile_linear ex_2x3 (Strategy (fixed_order [0; 3] [Fin 1; Fin 2; Fin 3]))
          (Sequence [1; 0]) 10 = Raise IndexError.
Proof.
  apply (feature_index_out_of_range_raises nanpercentile_linear ex_2x3
           (Strategy (fixed_order [0; 3] [Fin 1; Fin 2; Fin 3])) (Sequence [1; 0])
           [0; 3] (Some [Fin 1; Fin 2; Fin 3]) [1; 0] 10).
  - reflexivity.
  - unfold is_intp. repeat constructor; lia.
  - intros H. inversion H as [|? ? _ H2]. inversion H2 as [|? ? H3 _].
    unfold in_range in H3. cbn in H3. lia.
Defined.

(** ** Reindexing keeps names, columns and scores aligned *)

Lemma pick_lookup {A : Type} (d : A) (l : list A) (i : Z) :
  in_range (length l) i -> l !! position (length l) i = Some (pick d l i).
Proof.
  intros Hi. destruct (norm_index_in_range _ _ Hi) as [_ Hlt].
  destruct (lookup_lt_is_Some_2 l _ Hlt) as [x Hx]. rewrite Hx. f_equal.
  unfold pick. symmetry. apply nth_lookup_Some with (d := d). exact Hx.
Qed.

(** X6.  Reindexing moves cells, names and scores together: cell [(i, j)]
    of the reordered matrix is cell [(sample_order[i], input_order[j])] of
    the input, and name [j] and score [j] are those of feature
    [input_order[j]] (negative indices counting from the end). *)
Theorem reorder_aligned (shap_values : Explanation.t)
    (input_order : list Z) (ov : list num) (sample_order : list Z) :
  let v := Explanation.values shap_values in
  let names := Explanation.feature_names shap_values in
  wf_matrix v ->
  length names = ncols v ->
  length ov = ncols v ->
  Forall (in_range (ncols v)) input_order ->
  Forall (in_range (nrows v)) sample_order ->
  exists l,
    reorder shap_values input_order (Some ov) sample_order = Ok l /\
    forall i j si fj,
      sample_order !! i = Some si -> input_order !! j = Some fj ->
      exists x name score,
        cell (values l) i j = Some x /\
        cell v (position (nrows v) si) (position (ncols v) fj) = Some x /\
        feature_names l !! j = Some name /\
        names !! position (ncols v) fj = Some name /\
        order_values l !! j = Some score /\
        ov !! position (ncols v) fj = Some score.
Proof.
  intros v names Hwf Hn Ho Hio Hso.
  eexists. split; [apply reorder_ok; assumption|].
  intros i j si fj Hi Hj.
  cbn [values feature_names order_values].
  assert (Hsi : in_range (nrows v) si).
  { rewrite Forall_lookup in Hso. exact (Hso i si Hi). }
  assert (Hfj : in_range (ncols v) fj).
  { rewrite Forall_lookup in Hio. exact (Hio j fj Hj). }
  pose proof (pick_lookup [] (rows v) si Hsi) as Hrow.
  set (r := pick [] (rows v) si) in *.
  assert (Hlen : length r = ncols v).
  { unfold wf_matrix in Hwf. rewrite Forall_lookup in Hwf. exact (Hwf _ _ Hrow). }
  exists (pick zero r fj), (pick "" names fj), (pick zero ov fj).
  assert (H1 : r !! position (ncols v) fj = Some (pick zero r fj)).
  { rewrite <- Hlen. apply pick_lookup. rewrite Hlen. exact Hfj. }
  assert (H2 : names !! position (ncols v) fj = Some (pick "" names fj)).
  { rewrite <- Hn. apply pick_lookup. rewrite Hn. exact Hfj. }
  assert (H3 : ov !! position (ncols v) fj = Some (pick zero ov fj)).
  { rewrite <- Ho. apply pick_lookup. rewrite Ho. exact Hfj. }
  repeat split; try assumption.
  - unfold cell. cbn [rows]. rewrite !list_lookup_fmap, Hi. cbn.
    rewrite list_lookup_fmap, Hj. reflexivity.
  - unfold cell. unfold nrows. rewrite Hrow. exact H1.
  - rewrite list_lookup_fmap, Hj. reflexivity.
  - rewrite list_lookup_fmap, Hj. reflexivity.
Qed.

Lemma reorder_aligned_witness :
  exists l,
    reorder ex_2x3 [2; 0; 1] (Some [Fin 2; Fin 3; Fin 1]) [-1; 0] = Ok l /\
    cell (values l) 0 0 = cell (Explanation.values ex_2x3) 1 2 /\
    feature_names l !! 0%nat = Some "c".
Proof.
  destruct (reorder_aligned ex_2x3 [2; 0; 1] [Fin 2; Fin 3; Fin 1] [-1; 0])
    as (l & Hl & Hcells).
  - unfold wf_matrix. cbn. repeat constructor.
  - reflexivity.
  - reflexivity.
  - unfold in_range. cbn. repeat constructor; lia.
  - unfold in_range. cbn. repeat constructor; lia.
  - exists l. split; [exact Hl|].
    destruct (Hcells 0%nat 0%nat (-1) 2 eq_refl eq_refl)
      as (x & name & score & H1 & H2 & H3 & H4 & _).
    split.
    + rewrite H1. symmetry. exact H2.
    + rewrite H3. rewrite <- H4. reflexivity.
Defined.

(** ** Collapsing twice *)

(** X7.  Collapsing is idempotent: what a collapse returns is left
    unchanged by a second collapse with the same [max_display]. *)
Theorem collapse_idempotent (l l' : locals) (max_display : Z) :
  wf_matrix (values l) ->
  length (feature_names l) = ncols (values l) ->
  length (order_values l) = ncols (values l) ->
  collapse l max_display = Ok l' ->
  collapse l' max_display = Ok l'.
Proof.
  intros Hwf Hn Ho Hc.
  apply collapse_shape in Hc as (_ & Hle & _); try assumption.
  apply collapse_skipped. exact Hle.
Qed.

Lemma collapse_idempotent_witness :
  exists l', collapse ex_3x12 5 = Ok l' /\ collapse l' 5 = Ok l'.
Proof.
  destruct (collapse ex_3x12 5) as [l'|e] eqn:H; [|vm_compute in H; discriminate].
  exists l'. split; [reflexivity|].
  apply (collapse_idempotent ex_3x12 l' 5); [|reflexivity|reflexivity|exact H].
  unfold wf_matrix. cbn. repeat constructor.
Defined.



(** ** The colour range covers the percentiles *)

Lemma Qle_bool_true a b : Qle_bool a b = true <-> (a <= b)%Q.
Proof. apply Qle_bool_iff. Qed.

Lemma color_range_covers vmin vmax :
  is_nan vmin = false -> is_nan vmax = false ->
  nle (fst (color_range vmin vmax)) vmin /\ nle vmax (snd (color_range vmin vmax)).
Proof.
  unfold color_range, py_min, py_max.
  destruct vmin as [a| | |], vmax as [b| | |]; cbn; try discriminate; intros _ _;
    try (split; exact I); try (split; try exact I; lra).
  destruct (Qle_bool a (- b)) eqn:E1, (Qle_bool b (- a)) eqn:E2; cbn;
    try apply Qle_bool_iff in E1; try apply Qle_bool_false in E1;
    try apply Qle_bool_iff in E2; try apply Qle_bool_false in E2; split; lra.
Qed.

Lemma color_range_around_zero vmin vmax :
  nle vmin vmax ->
  nle (fst (color_range vmin vmax)) zero /\ nle zero (snd (color_range vmin vmax)).
Proof.
  unfold color_range, py_min, py_max, zero.
  destruct vmin as [a| | |], vmax as [b| | |]; cbn; try contradiction; intros H;
    try (split; exact I).
  - destruct (Qle_bool a (- b)) eqn:E1, (Qle_bool b (- a)) eqn:E2; cbn;
      try apply Qle_bool_iff in E1; try apply Qle_bool_false in E1;
      try apply Qle_bool_iff in E2; try apply Qle_bool_false in E2; split; lra.
Qed.

(** X9.  The colour range clips neither percentile: when the percentiles
    [p1] and [p99] of the drawn matrix are not NaN, [vmin <= p1] and
    [p99 <= vmax]; when moreover [p1 <= p99], zero lies in the range. *)
Theorem color_range_covers_percentiles
    (nanpercentile : list num -> Q -> num) (shap_values : Explanation.t)
    (input_order sample_order : ordering) (max_display : Z) (L : layout) :
  heatmap nanpercentile shap_values input_order sample_order max_display = Ok L ->
  let p1 := nanpercentile (flatten (imshow_values L)) 1%Q in
  let p99 := nanpercentile (flatten (imshow_values L)) 99%Q in
  is_nan p1 = false -> is_nan p99 = false ->
  nle (imshow_vmin L) p1 /\ nle p99 (imshow_vmax L) /\
  (nle p1 p99 -> nle (imshow_vmin L) zero /\ nle zero (imshow_vmax L)).
Proof.
  intros H p1 p99 H1 H99.
  apply heatmap_inv in H as [l Hl].
  apply draw_inv in Hl as (Hv & Hr & _).
  subst p1 p99. rewrite Hv in *.
  assert (Hmin : imshow_vmin L = fst (color_range (nanpercentile (flatten (values l)) 1%Q)
                                          (nanpercentile (flatten (values l)) 99%Q)))
    by (rewrite <- Hr; reflexivity).
  assert (Hmax : imshow_vmax L = snd (color_range (nanpercentile (flatten (values l)) 1%Q)
                                          (nanpercentile (flatten (values l)) 99%Q)))
    by (rewrite <- Hr; reflexivity).
  rewrite Hmin, Hmax.
  destruct (color_range_covers _ _ H1 H99) as [Ha Hb].
  split; [exact Ha|]. split; [exact Hb|].
  intros Hle. apply color_range_around_zero. exact Hle.
Qed.

Lemma color_range_covers_percentiles_witness :
  exists L,
    heatmap nanpercentile_linear ex_2x3 by_score_2x3 (Sequence [1; 0]) 10 = Ok L /\
    nle (imshow_vmin L) (nanpercentile_linear (flatten (imshow_values L)) 1%Q) /\
    nle (nanpercentile_linear (flatten (imshow_values L)) 99%Q) (imshow_vmax L).
Proof.
  destruct (heatmap nanpercentile_linear ex_2x3 by_score_2x3 (Sequence [1; 0]) 10)
    as [L|e] eqn:H; [|vm_compute in H; discriminate].
  exists L. split; [reflexivity|].
  pose proof H as H'. vm_compute in H'. injection H' as <-.
  destruct (color_range_covers_percentiles _ _ _ _ _ _ H) as (H1 & H2 & _);
    [reflexivity|reflexivity|].
  split; assumption.
Defined.

(** ** NaN in the drawn matrix, zero scores *)

Lemma fold_nadd_nan l : fold_left nadd l NaN = NaN.
Proof. induction l as [|x l IH]; [reflexivity|]. cbn [fold_left]. exact IH. Qed.

Lemma nadd_nan_r x : nadd x NaN = NaN.
Proof. destruct x; reflexivity. Qed.

Lemma fold_nadd_has_nan l s : Exists (fun x => x = NaN) l -> fold_left nadd l s = NaN.
Proof.
  intros H. revert s. induction H as [x l ->|x l _ IH]; intros s; cbn [fold_left].
  - rewrite nadd_nan_r. apply fold_nadd_nan.
  - apply IH.
Qed.

Lemma fold_np_maximum_nan l : fold_left np_maximum l NaN = NaN.
Proof. induction l as [|x l IH]; [reflexivity|]. cbn [fold_left]. exact IH. Qed.

Lemma fold_np_maximum_has_nan l s :
  Exists (fun x => x = NaN) l -> fold_left np_maximum l s = NaN.
Proof.
  intros H. revert s. induction H as [x l ->|x l _ IH]; intros s; cbn [fold_left].
  - assert (np_maximum s NaN = NaN) as -> by (destruct s; reflexivity).
    apply fold_np_maximum_nan.
  - apply IH.
Qed.

Lemma abs_max_has_nan (x : list num) :
  Exists (fun v => v = NaN) x -> abs_max x = Ok NaN.
Proof.
  intros H. unfold abs_max, np_max.
  destruct H as [v x ->|v x H]; cbn [map nabs].
  - rewrite fold_np_maximum_nan. reflexivity.
  - rewrite fold_np_maximum_has_nan; [reflexivity|].
    apply Exists_fmap. eapply Exists_impl; [exact H|]. intros y ->. reflexivity.
Qed.

Lemma ndiv_nan_r x : ndiv x NaN = NaN.
Proof. destruct x; reflexivity. Qed.

(** X10.  One NaN poisons the mean line: if the drawn matrix of a layout
    contains a NaN, every point of the line is NaN, because
    [np.abs(fx).max()] is then NaN. *)
Theorem nan_cell_makes_line_nan
    (nanpercentile : list num -> Q -> num) (shap_values : Explanation.t)
    (input_order sample_order : ordering) (max_display : Z) (L : layout) :
  heatmap nanpercentile shap_values input_order sample_order max_display = Ok L ->
  Exists (Exists (fun x => x = NaN)) (rows (imshow_values L)) ->
  Forall (fun y => y = NaN) (plot_line L).
Proof.
  intros H Hnan.
  apply heatmap_inv in H as [l Hl].
  apply draw_inv in Hl as (Hv & _ & Hline & _).
  rewrite Hv in Hnan.
  assert (Hfx : Exists (fun v => v = NaN) (fx_of (values l))).
  { unfold fx_of. apply Exists_fmap. eapply Exists_impl; [exact Hnan|].
    intros r Hr. unfold compose, nsum. rewrite fold_nadd_has_nan by exact Hr. reflexivity. }
  unfold mean_line in Hline. rewrite (abs_max_has_nan _ Hfx) in Hline.
  cbn [bind] in Hline. injection Hline as <-.
  rewrite Forall_fmap. apply Forall_true. intros x. unfold compose.
  rewrite ndiv_nan_r. reflexivity.
Qed.

Lemma nan_cell_makes_line_nan_witness :
  exists L,
    heatmap nanpercentile_linear ex_one_nan (Strategy (fixed_order [0; 1] [Fin 2; Fin 1]))
            (Sequence [0; 1]) 10 = Ok L /\
    rows (imshow_values L) = [[Fin 1; NaN]; [Fin 2; Fin 3]] /\
    length (plot_line L) = 2%nat /\
    Forall (fun y => y = NaN) (plot_line L).
Proof.
  destruct (heatmap nanpercentile_linear ex_one_nan (Strategy (fixed_order [0; 1] [Fin 2; Fin 1]))
              (Sequence [0; 1]) 10) as [L|e] eqn:H; [|vm_compute in H; discriminate].
  exists L.
  assert (Hrows : rows (imshow_values L) = [[Fin 1; NaN]; [Fin 2; Fin 3]]).
  { vm_compute in H. injection H as <-. reflexivity. }
  split; [reflexivity|]. split; [exact Hrows|]. split.
  - vm_compute in H. injection H as <-. reflexivity.
  - apply (nan_cell_makes_line_nan _ _ _ _ _ _ H).
    rewrite Hrows. apply Exists_cons_hd. apply Exists_cons_tl. apply Exists_cons_hd.
    reflexivity.
Defined.

Lemma take_idx_Forall {A : Type} (P : A -> Prop) (l : list A) idx r :
  take_idx l idx = Ok r -> Forall P l -> Forall P r.
Proof.
  intros H HP. eapply traverse_Forall; [|exact H].
  intros i b Hb. cbn beta in Hb.
  destruct (norm_index (length l) i) as [j|e]; cbn [bind] in Hb; [|discriminate].
  unfold item in Hb. destruct (l !! j) as [x|] eqn:Hx; [|discriminate].
  injection Hb as <-. rewrite Forall_lookup in HP. exact (HP j x Hx).
Qed.

Lemma bar_widths_zeros (scores : list num) (shape0 : nat) bars :
  Forall is_zero scores -> bar_widths scores shape0 = Ok bars ->
  Forall (fun b => b = NaN) bars.
Proof.
  intros Hz H.
  assert (Hne : scores <> []) by (intros ->; discriminate H).
  revert H. unfold bar_widths.
  destruct (abs_max_zeros scores Hne Hz) as (c & -> & Hc).
  cbn [bind]. intros [= <-].
  destruct (is_zero_inv _ Hc) as (c' & -> & Hc').
  rewrite Forall_fmap. eapply Forall_impl; [exact Hz|].
  intros x Hx. unfold compose. destruct (is_zero_inv _ Hx) as (a & -> & Ha).
  cbn [ndiv].
  assert (E1 : Qeq_bool c' 0 = true) by (apply Qeq_bool_iff; exact Hc').
  assert (E2 : (a ?= 0)%Q = Eq) by (apply Qeq_alt; exact Ha).
  rewrite E1, E2. reflexivity.
Qed.

(** X11.  When every score the feature ordering returns is zero, every
    bar of a produced layout is NaN (0/0): nothing is raised and no bar is
    drawn with a length. *)
Theorem zero_scores_make_bars_nan
    (nanpercentile : list num -> Q -> num) (shap_values : Explanation.t)
    (input_order sample_order : ordering)
    (io : list Z) (ov : list num) (so : list Z) (max_display : Z) (L : layout) :
  resolve shap_values input_order sample_order = Ok (io, Some ov, so) ->
  Forall is_zero ov ->
  heatmap nanpercentile shap_values input_order sample_order max_display = Ok L ->
  barh_width L <> [] /\ Forall (fun b => b = NaN) (barh_width L).
Proof.
  intros Hres Hz. unfold heatmap. rewrite Hres. cbn [bind fst snd].
  destruct (reorder _ _ _ _) as [l|e] eqn:Hl; cbn [bind]; [|discriminate].
  destruct (collapse l max_display) as [l'|e] eqn:Hl'; cbn [bind]; [|discriminate].
  intros HL.
  assert (Hzl : Forall is_zero (order_values l)).
  { revert Hl. unfold reorder.
    destruct (take_idx _ io); cbn [bind]; [|discriminate].
    destruct (take_rows _ _); cbn [bind]; [|discriminate].
    destruct (take_cols _ _); cbn [bind]; [|discriminate].
    destruct (take_idx ov io) as [scores|] eqn:Hs; cbn [bind]; [|discriminate].
    intros [= <-]. cbn [order_values]. eapply take_idx_Forall; eassumption. }
  destruct (reorder_shape _ _ _ _ _ Hl) as (Hwf & Hc & _ & Hn & Ho).
  assert (Hzl' : Forall is_zero (order_values l')).
  { destruct (Z.le_gt_cases (Z.of_nat (ncols (values l))) max_display) as [Hle|Hgt].
    - rewrite collapse_skipped in Hl' by exact Hle. injection Hl' as <-. exact Hzl.
    - destruct (Z.le_gt_cases 1 max_display) as [H1|H0].
      + rewrite collapse_merge in Hl' by (auto; lia). injection Hl' as <-.
        cbn [order_values]. apply merge_tail_zeros. exact Hzl.
      + exfalso.
        pose proof (collapse_below_one_raises nanpercentile l max_display ltac:(lia)) as Hr.
        rewrite Hl' in Hr. cbn [bind] in Hr. rewrite HL in Hr. exact Hr. }
  pose proof (draw_shape _ _ _ HL) as (_ & Hm & _ & _ & _ & Hb).
  apply collapse_shape in Hl' as (_ & _ & _ & _ & Ho'); [|assumption|lia|lia].
  apply draw_inv in HL as (_ & _ & _ & Hbars).
  split.
  - intros E. rewrite E in Hb. cbn in Hb. lia.
  - eapply bar_widths_zeros; eassumption.
Qed.

Lemma zero_scores_make_bars_nan_witness :
  exists L,
    heatmap nanpercentile_linear ex_2x3 (Strategy (fixed_order [2; 0; 1] [Fin 0; Fin 0; Fin 0]))
            (Sequence [1; 0]) 2 = Ok L /\
    Forall (fun b => b = NaN) (barh_width L).
Proof.
  destruct (heatmap nanpercentile_linear ex_2x3
              (Strategy (fixed_order [2; 0; 1] [Fin 0; Fin 0; Fin 0])) (Sequence [1; 0]) 2)
    as [L|e] eqn:H; [|vm_compute in H; discriminate].
  exists L. split; [reflexivity|].
  apply (zero_scores_make_bars_nan nanpercentile_linear ex_2x3
           (Strategy (fixed_order [2; 0; 1] [Fin 0; Fin 0; Fin 0])) (Sequence [1; 0])
           [2; 0; 1] [Fin 0; Fin 0; Fin 0] [1; 0] 2 L eq_refl); [|exact H].
  repeat constructor; reflexivity.
Defined.

(** ** The geometry handed to matplotlib *)

(** X12.  The geometry of a layout follows its matrix of [n] samples and
    [m] features: the figure is 8 wide and [m/2 + 2.5] high, which is between
    3 and [max_display/2 + 2.5]; the aspect ratio is positive; the bars start
    at [n - 0.5]. *)
Theorem geometry_follows_matrix
    (nanpercentile : list num -> Q -> num) (shap_values : Explanation.t)
    (input_order sample_order : ordering) (max_display : Z) (L : layout) :
  heatmap nanpercentile shap_values input_order sample_order max_display = Ok L ->
  let m := inject_Z (Z.of_nat (ncols (imshow_values L))) in
  let n := inject_Z (Z.of_nat (nrows (imshow_values L))) in
  (fst (size_inches L) == 8 /\
   snd (size_inches L) == m / 2 + 5 / 2 /\
   3 <= snd (size_inches L) <= inject_Z max_display / 2 + 5 / 2 /\
   0 < imshow_aspect L /\
   barh_left L == n - 1 / 2)%Q.
Proof.
  intros H m n.
  apply heatmap_collapsed in H as (l & Hl & _ & Hm2 & _).
  pose proof (draw_shape _ _ _ Hl) as (Hv & Hm1 & Hn & _).
  revert Hl. unfold draw, aspect.
  destruct (Nat.eqb_spec (ncols (values l)) 0) as [E|E]; cbn [bind]; [discriminate|].
  destruct (mean_line _); cbn [bind]; [|discriminate].
  destruct (bar_widths _ _); cbn [bind]; [|discriminate].
  intros [= <-]. cbn [size_inches imshow_aspect barh_left fst snd imshow_values] in *.
  subst m n.
  assert (Hmq : (1 <= inject_Z (Z.of_nat (ncols (values l))))%Q).
  { change 1%Q with (inject_Z 1). rewrite <- Zle_Qle. lia. }
  assert (Hmd : (inject_Z (Z.of_nat (ncols (values l))) <= inject_Z max_display)%Q).
  { rewrite <- Zle_Qle. exact Hm2. }
  assert (Hnq : (1 <= inject_Z (Z.of_nat (nrows (values l))))%Q).
  { change 1%Q with (inject_Z 1). rewrite <- Zle_Qle. lia. }
  set (m := inject_Z (Z.of_nat (ncols (values l)))) in *.
  set (n := inject_Z (Z.of_nat (nrows (values l)))) in *.
  clearbody m n.
  split; [reflexivity|]. split; [field|].
  split; [unfold Qdiv; change (/ 2)%Q with (1 # 2)%Q; split; lra|].
  split; [|field].
  apply Qlt_shift_div_l; lra.
Qed.

Lemma geometry_follows_matrix_witness :
  exists L,
    heatmap nanpercentile_linear ex_2x3 by_score_2x3 (Sequence [1; 0]) 2 = Ok L /\
    (3 <= snd (size_inches L) <= inject_Z 2 / 2 + 5 / 2)%Q /\
    (0 < imshow_aspect L)%Q.
Proof.
  destruct (heatmap nanpercentile_linear ex_2x3 by_score_2x3 (Sequence [1; 0]) 2)
    as [L|e] eqn:H; [|vm_compute in H; discriminate].
  exists L. split; [reflexivity|].
  destruct (geometry_follows_matrix _ _ _ _ _ _ H) as (_ & _ & H3 & H5 & _).
  split; assumption.
Defined.

(** ** When the features fit *)

(** X14.  When the features fit ([len(input_order) <= max_display]) and
    the shapes are valid, the drawn matrix is the input reindexed by the two
    orderings, nothing more, and the tick labels are "f(x)" followed by the
    names in the feature ordering. *)
Theorem heatmap_without_collapse
    (nanpercentile : list num -> Q -> num) (shap_values : Explanation.t)
    (input_order sample_order : ordering)
    (io : list Z) (ov : list num) (so : list Z) (max_display : Z) :
  let v := Explanation.values shap_values in
  let names := Explanation.feature_names shap_values in
  resolve shap_values input_order sample_order = Ok (io, Some ov, so) ->
  wf_matrix v -> length names = ncols v -> length ov = ncols v ->
  Forall (in_range (ncols v)) io -> io <> [] ->
  Forall (in_range (nrows v)) so -> so <> [] ->
  Z.of_nat (length io) <= max_display ->
  exists L,
    heatmap nanpercentile shap_values input_order sample_order max_display = Ok L /\
    imshow_values L =
      Matrix (length io)
             (map (fun i => map (pick zero (pick [] (rows v) i)) io) so) /\
    yticks_labels L = "f(x)" :: map (pick "" names) io.
Proof.
  intros v names Hres Hwf Hn Ho Hio Hione Hso Hsone Hmd.
  pose proof (reorder_ok shap_values io ov so Hwf Hn Ho Hio Hso) as Hl.
  set (l := Locals _ _ _) in Hl.
  assert (Hc : collapse l max_display = Ok l) by (apply collapse_skipped; exact Hmd).
  destruct (draw_ok nanpercentile l) as [L HL].
  - cbn. destruct io; [contradiction|cbn; lia].
  - cbn. destruct so; [contradiction|discriminate].
  - cbn. destruct io; [contradiction|discriminate].
  - exists L. split.
    + unfold heatmap. rewrite Hres. cbn [bind fst snd]. rewrite Hl. cbn [bind].
      rewrite Hc. cbn [bind]. exact HL.
    + apply draw_shape in HL as (-> & _ & _ & -> & _). cbn [values feature_names l].
      rewrite map_map. split; reflexivity.
Qed.

Lemma heatmap_without_collapse_witness :
  exists L,
    heatmap nanpercentile_linear ex_2x3 by_score_2x3 (Sequence [1; 0]) 3 = Ok L /\
    imshow_values L = Matrix 3 (ints [[6; 4; 5]; [3; 1; 2]]) /\
    yticks_labels L = ["f(x)"; "c"; "a"; "b"].
Proof.
  apply (heatmap_without_collapse nanpercentile_linear ex_2x3 by_score_2x3 (Sequence [1; 0])
           [2; 0; 1] [Fin 2; Fin 3; Fin 1] [1; 0] 3).
  - reflexivity.
  - unfold wf_matrix. cbn. repeat constructor.
  - reflexivity.
  - reflexivity.
  - unfold in_range. cbn. repeat constructor; lia.
  - discriminate.
  - unfold in_range. cbn. repeat constructor; lia.
  - discriminate.
  - cbn. lia.
Defined.

(** ** The longest bar and the highest point of the line *)




